(** * The module analysis pass of [skeleton/Skeleton.cpp]

    [SkeletonPass::run] walks a module (function, basic block, instruction),
    tests each instruction against a cascade of [dyn_cast]s and writes a
    line-oriented report to [errs()].  It returns [PreservedAnalyses::all()].

    The embedding keeps the shape of the pass: the IR is the part of LLVM's
    object graph the pass reads, [errs()] is an append-only sequence of lines
    in a small state monad, and every [errs() << ... << "\n"] statement of the
    source is one [errs_line]. *)

From Stdlib Require Import String Ascii List ZArith NArith Lia Bool.
From Stdlib Require Import DecimalString.
Import ListNotations.

Local Open Scope string_scope.
Local Open Scope list_scope.

(* ================================================================== *)
(** ** The IR, as far as the pass reads it *)
(* ================================================================== *)

Module IR.

(** [llvm::Type]: only ever streamed, so a type is its printed form. *)
Record Ty : Type := mkTy { tyText : string }.

(** [llvm::APInt], the payload of a [ConstantInt]: [BitWidth] bits holding the
    unsigned number [U]. *)
Record APInt : Type := mkAPInt { BitWidth : N; U : Z }.

(** [APInt::getSExtValue]: the value read as a two's complement number of
    [BitWidth] bits; for more than 64 bits the low word is returned as an
    [int64_t]. *)
Definition SignExtend64 (x : Z) (b : N) : Z :=
  let m := Z.modulo x (2 ^ Z.of_N b) in
  if Z.testbit m (Z.of_N b - 1) then m - 2 ^ Z.of_N b else m.

Definition getSExtValue (c : APInt) : Z :=
  if (BitWidth c <=? 64)%N then SignExtend64 (U c) (BitWidth c)
  else SignExtend64 (U c) 64.

(** [APInt::getZExtValue] (the low word when there are more than 64 bits) and
    [APInt::isOne]. *)
Definition getZExtValue (c : APInt) : N :=
  Z.to_N ((U c mod 2 ^ Z.of_N (BitWidth c)) mod 2 ^ 64).

Definition isOne (c : APInt) : bool :=
  (U c mod 2 ^ Z.of_N (BitWidth c) =? 1)%Z.

(** The subclass of [llvm::Value] an operand belongs to.  The pass asks only
    [dyn_cast<Instruction>] and [dyn_cast<ConstantInt>] of a value. *)
Inductive ValueClass : Type :=
| InstructionVal
| ArgumentVal
| ConstantIntVal (c : APInt)
| BasicBlockVal
| FunctionVal
| OtherVal.

(** [llvm::Value]: an optional name, a type, and the text [operator<<]
    prints for it. *)
Record Value : Type := mkValue {
  valueName  : option string;
  valueType  : Ty;
  valueText  : string;
  valueClass : ValueClass
}.

(** [Value::hasName] and [Value::getName] (the empty [StringRef] when there
    is no name), on the name slot of any named entity. *)
Definition hasName (n : option string) : bool :=
  match n with Some _ => true | None => false end.

Definition getName (n : option string) : string :=
  match n with Some s => s | None => "" end.

(** [llvm::Argument]. *)
Record Argument : Type := mkArgument {
  argName : option string;
  argType : Ty
}.

(** [llvm::TypeSize]: a quantity, possibly a multiple of [vscale]. *)
Record TypeSize : Type := mkTypeSize { Quantity : N; Scalable : bool }.

(** [llvm::DataLayout].  The pass reaches it through
    [AllocaInst::getAllocationSize(DL)], which asks it for
    [DL.getTypeAllocSize] of the allocated type.  That query is the host's; it
    is defined on sized types, the only ones the verifier admits in an
    [alloca]. *)
Record DataLayout : Type := mkDataLayout {
  getTypeAllocSize : Ty -> TypeSize
}.

(** Opcodes, grouped as [Instruction.def] groups them. *)
Inductive BinaryOps : Type :=
| Add | FAdd | Sub | FSub | Mul | FMul | UDiv | SDiv | FDiv
| URem | SRem | FRem | Shl | LShr | AShr | And | Or | Xor.

Inductive CastOps : Type :=
| Trunc | ZExt | SExt | FPToUI | FPToSI | UIToFP | SIToFP | FPTrunc | FPExt
| PtrToInt | IntToPtr | BitCast | AddrSpaceCast.

Inductive OtherOps : Type :=
| Switch | IndirectBr | Invoke | Resume | Unreachable | CleanupRet | CatchRet
| CatchSwitch | CallBr | FNeg | GetElementPtr | Fence | AtomicCmpXchg
| AtomicRMW | CleanupPad | CatchPad | PHI | Select | UserOp1 | UserOp2
| VAArg | ExtractElement | InsertElement | ShuffleVector | ExtractValue
| InsertValue | LandingPad | Freeze.

(** [CmpInst::Predicate], split by the instruction that carries it. *)
Inductive IPredicate : Type :=
| ICMP_EQ | ICMP_NE | ICMP_UGT | ICMP_UGE | ICMP_ULT | ICMP_ULE
| ICMP_SGT | ICMP_SGE | ICMP_SLT | ICMP_SLE.

Inductive FPredicate : Type :=
| FCMP_FALSE | FCMP_OEQ | FCMP_OGT | FCMP_OGE | FCMP_OLT | FCMP_OLE
| FCMP_ONE | FCMP_ORD | FCMP_UNO | FCMP_UEQ | FCMP_UGT | FCMP_UGE
| FCMP_ULT | FCMP_ULE | FCMP_UNE | FCMP_TRUE.

(** What [CallInst::getCalledFunction] points to: the callee's name and its
    formal parameters. *)
Record Callee : Type := mkCallee {
  calleeName : option string;
  calleeArgs : list Argument
}.

(** The instruction classes of LLVM.  Each constructor is one class (or, for
    [OtherInst], every class the pass has no [dyn_cast] for) with the
    operands that class guarantees. *)
Inductive InstClass : Type :=
| BinaryOperator (opc : BinaryOps) (Op0 Op1 : Value)
| AllocaInst (AllocatedType : Ty) (ArraySize : Value) (Align : N)
| LoadInst (PointerOperand : Value) (Align : N)
| StoreInst (ValueOperand PointerOperand : Value) (Align : N)
| CallInst (CalledFunction : option Callee) (CalledOperand : Value)
           (Args : list Value)
| BranchInstUncond (Successor0 : Value)
| BranchInstCond (Condition Successor0 Successor1 : Value)
| ReturnInst (ReturnValue : option Value)
| ICmpInst (pred : IPredicate) (Op0 Op1 : Value)
| FCmpInst (pred : FPredicate) (Op0 Op1 : Value)
| CastInst (opc : CastOps) (Op0 : Value)
| OtherInst (opc : OtherOps) (Ops : list Value).

(** [llvm::Instruction]: its class together with its result type and the
    text [operator<<] prints for it. *)
Record Instruction : Type := mkInstruction {
  instText  : string;
  instType  : Ty;
  instClass : InstClass
}.

Record BasicBlock : Type := mkBasicBlock {
  bbName       : option string;
  instructions : list Instruction
}.

Record Function : Type := mkFunction {
  fnName     : option string;
  returnType : Ty;
  args       : list Argument;
  blocks     : list BasicBlock
}.

Record Module : Type := mkModule {
  moduleName : string;
  dataLayout : DataLayout;
  functions  : list Function
}.

(** [GlobalValue::isDeclaration] on a function of a materialized module: the
    function has no basic block. *)
Definition isDeclaration (F : Function) : bool :=
  match blocks F with [] => true | _ :: _ => false end.

(** [Instruction::getOpcodeName]. *)
Definition binaryOpcodeName (o : BinaryOps) : string :=
  match o with
  | Add => "add" | FAdd => "fadd" | Sub => "sub" | FSub => "fsub"
  | Mul => "mul" | FMul => "fmul" | UDiv => "udiv" | SDiv => "sdiv"
  | FDiv => "fdiv" | URem => "urem" | SRem => "srem" | FRem => "frem"
  | Shl => "shl" | LShr => "lshr" | AShr => "ashr"
  | And => "and" | Or => "or" | Xor => "xor"
  end.

Definition castOpcodeName (o : CastOps) : string :=
  match o with
  | Trunc => "trunc" | ZExt => "zext" | SExt => "sext"
  | FPToUI => "fptoui" | FPToSI => "fptosi"
  | UIToFP => "uitofp" | SIToFP => "sitofp"
  | FPTrunc => "fptrunc" | FPExt => "fpext"
  | PtrToInt => "ptrtoint" | IntToPtr => "inttoptr"
  | BitCast => "bitcast" | AddrSpaceCast => "addrspacecast"
  end.

Definition otherOpcodeName (o : OtherOps) : string :=
  match o with
  | Switch => "switch" | IndirectBr => "indirectbr" | Invoke => "invoke"
  | Resume => "resume" | Unreachable => "unreachable"
  | CleanupRet => "cleanupret" | CatchRet => "catchret"
  | CatchSwitch => "catchswitch" | CallBr => "callbr" | FNeg => "fneg"
  | GetElementPtr => "getelementptr" | Fence => "fence"
  | AtomicCmpXchg => "cmpxchg" | AtomicRMW => "atomicrmw"
  | CleanupPad => "cleanuppad" | CatchPad => "catchpad" | PHI => "phi"
  | Select => "select" | UserOp1 => "<Invalid operator> "
  | UserOp2 => "<Invalid operator> " | VAArg => "va_arg"
  | ExtractElement => "extractelement" | InsertElement => "insertelement"
  | ShuffleVector => "shufflevector" | ExtractValue => "extractvalue"
  | InsertValue => "insertvalue" | LandingPad => "landingpad"
  | Freeze => "freeze"
  end.

Definition getOpcodeName (I : Instruction) : string :=
  match instClass I with
  | BinaryOperator o _ _ => binaryOpcodeName o
  | AllocaInst _ _ _ => "alloca"
  | LoadInst _ _ => "load"
  | StoreInst _ _ _ => "store"
  | CallInst _ _ _ => "call"
  | BranchInstUncond _ | BranchInstCond _ _ _ => "br"
  | ReturnInst _ => "ret"
  | ICmpInst _ _ _ => "icmp"
  | FCmpInst _ _ _ => "fcmp"
  | CastInst o _ => castOpcodeName o
  | OtherInst o _ => otherOpcodeName o
  end.

(** [User::getOperand] / [getNumOperands]: the operand list of each class in
    LLVM's layout (the callee is the last operand of a call, the condition
    the first of a conditional branch, followed by the false and the true
    successor). *)
Definition operands (I : Instruction) : list Value :=
  match instClass I with
  | BinaryOperator _ a b => [a; b]
  | AllocaInst _ n _ => [n]
  | LoadInst p _ => [p]
  | StoreInst v p _ => [v; p]
  | CallInst _ f xs => xs ++ [f]
  | BranchInstUncond s => [s]
  | BranchInstCond c t f => [c; f; t]
  | ReturnInst None => []
  | ReturnInst (Some v) => [v]
  | ICmpInst _ a b => [a; b]
  | FCmpInst _ a b => [a; b]
  | CastInst _ a => [a]
  | OtherInst _ xs => xs
  end.

End IR.

(* ================================================================== *)
(** ** The output stream and the monad of the pass *)
(* ================================================================== *)

Module Stream.
Import IR.
Local Open Scope string_scope.

(** What [run] can touch: the module it is handed by reference and the
    process-wide [errs()] stream.  The stream is kept as the lines written so
    far, each one ended by a newline in the byte stream: one entry is what one
    [errs() << ... << "\n"] statement wrote (the printed form of a value may
    contain newlines of its own). *)
Record World : Type := mkWorld {
  ir   : Module;
  errs : list string
}.

Definition M (A : Type) : Type := World -> A * World.

Definition ret {A} (a : A) : M A := fun w => (a, w).

Definition bind {A B} (m : M A) (k : A -> M B) : M B :=
  fun w => let (a, w') := m w in k a w'.

Definition getModule : M Module := fun w => (ir w, w).

(** One [errs() << ... << "\n"] statement. *)
Definition errs_line (s : string) : M unit :=
  fun w => (tt, {| ir := ir w; errs := errs w ++ [s] |}).

Definition when (b : bool) (m : M unit) : M unit :=
  if b then m else ret tt.

(** A range-based [for]: the body sees the element and its position in the
    sequence. *)
Fixpoint for_each_from {A} (pos : nat) (l : list A)
         (body : nat -> A -> M unit) : M unit :=
  match l with
  | [] => ret tt
  | x :: r => bind (body pos x) (fun _ => for_each_from (S pos) r body)
  end.

Definition for_each {A} (l : list A) (body : A -> M unit) : M unit :=
  for_each_from 0 l (fun _ x => body x).

(** The bytes on the stream. *)
Definition stream_text (ls : list string) : string :=
  String.concat "" (map (fun l => l ++ String "010"%char "") ls).

(** [raw_ostream << unsigned] and [raw_ostream << int64_t]. *)
Definition dec (n : N) : string := NilZero.string_of_uint (N.to_uint n).
Definition sdec (z : Z) : string := NilZero.string_of_int (Z.to_int z).

(** The value of an [unsigned] counter that started at 0 and was incremented
    once in each iteration up to and including the one at position [pos]. *)
Definition counter_at (pos : nat) : N := (N.of_nat (S pos) mod 2 ^ 32)%N.

(** [raw_ostream << TypeSize] and [raw_ostream << std::optional<T>], which
    prints an empty optional as [None]. *)
Definition printTypeSize (s : TypeSize) : string :=
  (if Scalable s then "vscale x " else "") ++ dec (Quantity s).

Definition printOptional (o : option TypeSize) : string :=
  match o with Some s => printTypeSize s | None => "None" end.

(** A run of [n] copies of a glyph, for the rules of the report. *)
Definition rule (glyph : string) (n : nat) : string :=
  String.concat "" (repeat glyph n).

End Stream.

Declare Scope pass_scope.
Delimit Scope pass_scope with pass.
Notation "x <- c1 ;; c2" := (Stream.bind c1 (fun x => c2))
  (at level 61, c1 at next level, right associativity) : pass_scope.
Notation "c1 ;; c2" := (Stream.bind c1 (fun _ => c2))
  (at level 61, right associativity) : pass_scope.

(* ================================================================== *)
(** ** The pass *)
(* ================================================================== *)

Module SkeletonPass.
Import IR Stream.
Local Open Scope string_scope.
Local Open Scope pass_scope.

(** [llvm::PreservedAnalyses], by the two values a pass can build without
    naming an analysis. *)
Inductive PreservedAnalyses : Type :=
| PreservedAnalyses_all
| PreservedAnalyses_none.

(** *** [dyn_cast]

    [dyn_cast<T>(&I)] is [T::classof(&I)] followed by a typed view of the same
    instruction.  The views carry what the pass reads through them. *)

Record BinaryOperatorView : Type := mkBinaryOperatorView {
  bo_opc : BinaryOps; bo_Op0 : Value; bo_Op1 : Value
}.

Record AllocaInstView : Type := mkAllocaInstView {
  al_AllocatedType : Ty; al_ArraySize : Value; al_Align : N
}.

Record LoadInstView : Type := mkLoadInstView {
  ld_PointerOperand : Value; ld_Type : Ty; ld_Align : N
}.

Record StoreInstView : Type := mkStoreInstView {
  st_ValueOperand : Value; st_PointerOperand : Value; st_Align : N
}.

Record CallInstView : Type := mkCallInstView {
  ci_CalledFunction : option Callee; ci_CalledOperand : Value;
  ci_args : list Value
}.

Inductive BranchInstView : Type :=
| Unconditional (Successor0 : Value)
| Conditional (Condition Successor0 Successor1 : Value).

Record ReturnInstView : Type := mkReturnInstView {
  ri_ReturnValue : option Value
}.

Record CmpInstView : Type := mkCmpInstView {
  cmp_Op0 : Value; cmp_Op1 : Value
}.

Record ICmpInstView : Type := mkICmpInstView {
  icmp_Predicate : IPredicate
}.

Record CastInstView : Type := mkCastInstView {
  cast_opc : CastOps; cast_SrcTy : Ty; cast_DestTy : Ty; cast_Op0 : Value
}.

Definition dyn_cast_BinaryOperator (I : Instruction)
  : option BinaryOperatorView :=
  match instClass I with
  | BinaryOperator o a b => Some (mkBinaryOperatorView o a b)
  | _ => None
  end.

Definition dyn_cast_AllocaInst (I : Instruction) : option AllocaInstView :=
  match instClass I with
  | AllocaInst t n a => Some (mkAllocaInstView t n a)
  | _ => None
  end.

Definition dyn_cast_LoadInst (I : Instruction) : option LoadInstView :=
  match instClass I with
  | LoadInst p a => Some (mkLoadInstView p (instType I) a)
  | _ => None
  end.

Definition dyn_cast_StoreInst (I : Instruction) : option StoreInstView :=
  match instClass I with
  | StoreInst v p a => Some (mkStoreInstView v p a)
  | _ => None
  end.

Definition dyn_cast_CallInst (I : Instruction) : option CallInstView :=
  match instClass I with
  | CallInst f t xs => Some (mkCallInstView f t xs)
  | _ => None
  end.

Definition dyn_cast_BranchInst (I : Instruction) : option BranchInstView :=
  match instClass I with
  | BranchInstUncond s => Some (Unconditional s)
  | BranchInstCond c t f => Some (Conditional c t f)
  | _ => None
  end.

Definition dyn_cast_ReturnInst (I : Instruction) : option ReturnInstView :=
  match instClass I with
  | ReturnInst v => Some (mkReturnInstView v)
  | _ => None
  end.

(** [CmpInst::classof] accepts both compare opcodes. *)
Definition dyn_cast_CmpInst (I : Instruction) : option CmpInstView :=
  match instClass I with
  | ICmpInst _ a b => Some (mkCmpInstView a b)
  | FCmpInst _ a b => Some (mkCmpInstView a b)
  | _ => None
  end.

Definition dyn_cast_ICmpInst (I : Instruction) : option ICmpInstView :=
  match instClass I with
  | ICmpInst p _ _ => Some (mkICmpInstView p)
  | _ => None
  end.

(** [CastInst::getSrcTy] is the type of operand 0, [getDestTy] the type of
    the instruction. *)
Definition dyn_cast_CastInst (I : Instruction) : option CastInstView :=
  match instClass I with
  | CastInst o a => Some (mkCastInstView o (valueType a) (instType I) a)
  | _ => None
  end.

(** [Operator::classof] answers yes for every [Instruction] (and every
    [ConstantExpr]). *)
Definition dyn_cast_Operator (I : Instruction) : option Instruction :=
  Some I.

(** [dyn_cast<Instruction>] and [dyn_cast<ConstantInt>] on a value. *)
Definition dyn_cast_Instruction (v : Value) : option Value :=
  match valueClass v with InstructionVal => Some v | _ => None end.

Definition dyn_cast_ConstantInt (v : Value) : option APInt :=
  match valueClass v with ConstantIntVal c => Some c | _ => None end.

(** [AllocaInst::isArrayAllocation]: the array size is anything but the
    constant 1. *)
Definition isArrayAllocation (alloca : AllocaInstView) : bool :=
  match dyn_cast_ConstantInt (al_ArraySize alloca) with
  | Some CI => negb (isOne CI)
  | None => true
  end.

(** [checkedMulUnsigned] on [uint64_t]. *)
Definition checkedMulUnsigned (a b : N) : option N :=
  if (a * b <? 2 ^ 64)%N then Some (a * b)%N else None.

(** [AllocaInst::getAllocationSize]: the allocation size of the type, times
    the array size for an array allocation; no value when the array size is
    not a constant or the product overflows. *)
Definition getAllocationSize (alloca : AllocaInstView) (DL : DataLayout)
  : option TypeSize :=
  let Size := getTypeAllocSize DL (al_AllocatedType alloca) in
  if isArrayAllocation alloca then
    match dyn_cast_ConstantInt (al_ArraySize alloca) with
    | None => None
    | Some C =>
        match checkedMulUnsigned (Quantity Size) (getZExtValue C) with
        | None => None
        | Some CheckedProd => Some (mkTypeSize CheckedProd false)
        end
    end
  else Some Size.

(** *** The predicate of an integer comparison (the [switch] of the pass) *)
Definition predicateName (p : IPredicate) : string :=
  match p with
  | ICMP_EQ => "Equal (==)"
  | ICMP_NE => "Not Equal (!=)"
  | ICMP_SGT => "Signed Greater Than (>)"
  | ICMP_SGE => "Signed Greater or Equal (>=)"
  | ICMP_SLT => "Signed Less Than (<)"
  | ICMP_SLE => "Signed Less or Equal (<=)"
  | _ => "Other"
  end.

(** *** One instruction: the cascade of [dyn_cast]s *)
Definition analyzeInstruction (Mod : Module) (I : Instruction) : M unit :=
  match dyn_cast_BinaryOperator I with
  | Some binOp =>
      errs_line ("   │      🔧 Binary Operation: " ++ binaryOpcodeName (bo_opc binOp)) ;;
      errs_line ("   │         Operand 1: " ++ valueText (bo_Op0 binOp)) ;;
      errs_line ("   │         Operand 2: " ++ valueText (bo_Op1 binOp))
  | None =>
  match dyn_cast_AllocaInst I with
  | Some alloca =>
      errs_line "   │      📦 Stack Allocation (alloca)" ;;
      errs_line ("   │         Type: " ++ tyText (al_AllocatedType alloca)) ;;
      errs_line ("   │         Size: "
                 ++ printOptional (getAllocationSize alloca (dataLayout Mod))
                 ++ " bytes") ;;
      errs_line ("   │         Alignment: " ++ dec (al_Align alloca) ++ " bytes")
  | None =>
  match dyn_cast_LoadInst I with
  | Some load =>
      errs_line "   │      📥 Load from Memory" ;;
      errs_line ("   │         Source: " ++ valueText (ld_PointerOperand load)) ;;
      errs_line ("   │         Type: " ++ tyText (ld_Type load)) ;;
      errs_line ("   │         Alignment: " ++ dec (ld_Align load) ++ " bytes")
  | None =>
  match dyn_cast_StoreInst I with
  | Some store =>
      errs_line "   │      📤 Store to Memory" ;;
      errs_line ("   │         Value: " ++ valueText (st_ValueOperand store)) ;;
      errs_line ("   │         Destination: " ++ valueText (st_PointerOperand store)) ;;
      errs_line ("   │         Alignment: " ++ dec (st_Align store) ++ " bytes")
  | None =>
  match dyn_cast_CallInst I with
  | Some call =>
      match ci_CalledFunction call with
      | Some callee =>
          errs_line ("   │      📞 Function Call: " ++ getName (calleeName callee) ++ "()") ;;
          errs_line ("   │         Arguments: " ++ dec (N.of_nat (length (ci_args call)))) ;;
          for_each_from 0 (ci_args call) (fun pos arg =>
            errs_line ("   │         Arg " ++ dec (counter_at pos) ++ ": "
                       ++ valueText arg)) ;;
          errs_line "   │         Target Function Signature:" ;;
          for_each (calleeArgs callee) (fun param =>
            errs_line ("   │           • "
                       ++ (if hasName (argName param)
                           then getName (argName param) else "unnamed")
                       ++ " : " ++ tyText (argType param)))
      | None =>
          errs_line "   │      📞 Indirect Function Call" ;;
          errs_line ("   │         Target: " ++ valueText (ci_CalledOperand call))
      end
  | None =>
  match dyn_cast_BranchInst I with
  | Some br =>
      match br with
      | Conditional cond succ0 succ1 =>
          errs_line "   │      🔀 Conditional Branch" ;;
          errs_line ("   │         Condition: " ++ valueText cond) ;;
          errs_line ("   │         True Block: " ++ getName (valueName succ0)) ;;
          errs_line ("   │         False Block: " ++ getName (valueName succ1))
      | Unconditional succ0 =>
          errs_line "   │      ➡️  Unconditional Branch" ;;
          errs_line ("   │         Target: " ++ getName (valueName succ0))
      end
  | None =>
  match dyn_cast_ReturnInst I with
  | Some ret_ =>
      match ri_ReturnValue ret_ with
      | Some retVal =>
          errs_line "   │      🔙 Return Statement" ;;
          errs_line ("   │         Type: " ++ tyText (valueType retVal)) ;;
          if hasName (valueName retVal) then
            errs_line ("   │         Value: " ++ getName (valueName retVal))
          else
            errs_line "   │         Value: (unnamed temporary)" ;;
            match dyn_cast_Instruction retVal with
            | Some inst => errs_line ("   │         Source: " ++ valueText inst)
            | None =>
                match dyn_cast_ConstantInt retVal with
                | Some constant =>
                    errs_line ("   │         Constant: " ++ sdec (getSExtValue constant))
                | None => ret tt
                end
            end
      | None => errs_line "   │      🔙 Return Statement (void)"
      end
  | None =>
  match dyn_cast_CmpInst I with
  | Some cmp =>
      errs_line "   │      ⚖️  Comparison Instruction" ;;
      match dyn_cast_ICmpInst I with
      | Some icmp =>
          errs_line "   │         Type: Integer Comparison" ;;
          errs_line ("   │         Predicate: " ++ predicateName (icmp_Predicate icmp))
      | None => ret tt
      end ;;
      errs_line ("   │         Left Operand: " ++ valueText (cmp_Op0 cmp)) ;;
      errs_line ("   │         Right Operand: " ++ valueText (cmp_Op1 cmp))
  | None =>
  match dyn_cast_CastInst I with
  | Some cast =>
      errs_line ("   │      🔄 Cast Operation: " ++ castOpcodeName (cast_opc cast)) ;;
      errs_line ("   │         From: " ++ tyText (cast_SrcTy cast)) ;;
      errs_line ("   │         To: " ++ tyText (cast_DestTy cast)) ;;
      errs_line ("   │         Source: " ++ valueText (cast_Op0 cast))
  | None =>
  match dyn_cast_Operator I with
  | Some op =>
      errs_line ("   │      ⚙️  Other Operator: " ++ getOpcodeName I) ;;
      errs_line ("   │         Operands: " ++ dec (N.of_nat (length (operands I)))) ;;
      for_each_from 0 (operands I) (fun i operand =>
        errs_line ("   │         Op[" ++ dec (N.of_nat i) ++ "]: " ++ valueText operand))
  | None =>
      errs_line "   │      ❓ Unknown Instruction Type" ;;
      errs_line ("   │         Opcode: " ++ getOpcodeName I)
  end end end end end end end end end end.

(** *** One basic block

    [pos] is the position of [BB] in [F]; [&BB != &F.back()] compares it with
    the position of the last block. *)
Definition isBack (F : Function) (pos : nat) : bool :=
  Nat.eqb pos (Nat.pred (length (blocks F))).

Definition interiorSeparator : string := "   ├" ++ rule "─" 53.
Definition finalSeparator : string := "   └" ++ rule "─" 53.

Definition analyzeBasicBlock (Mod : Module) (F : Function) (pos : nat)
           (BB : BasicBlock) : M unit :=
  errs_line ("   ┌─ Basic Block #" ++ dec (counter_at pos) ++ ": "
             ++ (if hasName (bbName BB) then getName (bbName BB)
                 else "unnamed")) ;;
  errs_line ("   │  Instructions: " ++ dec (N.of_nat (length (instructions BB)))) ;;
  errs_line "   │" ;;
  for_each_from 0 (instructions BB) (fun ipos I =>
    errs_line ("   │  [" ++ dec (counter_at ipos) ++ "] " ++ instText I) ;;
    analyzeInstruction Mod I ;;
    errs_line "   │") ;;
  if negb (isBack F pos) then errs_line interiorSeparator
  else errs_line finalSeparator.

(** *** One function *)
Definition arg_size (F : Function) : N := N.of_nat (length (args F)).

Definition analyzeFunction (Mod : Module) (F : Function) : M unit :=
  if isDeclaration F then
    errs_line ("📋 External Function Declaration: " ++ getName (fnName F) ++ "()") ;;
    errs_line ("   ↳ Return Type: " ++ tyText (returnType F)) ;;
    errs_line ("   ↳ Parameters: " ++ dec (arg_size F)) ;;
    when (0 <? arg_size F)%N
      (for_each (args F) (fun arg =>
         errs_line ("     • "
                    ++ (if hasName (argName arg) then getName (argName arg)
                        else "unnamed")
                    ++ " : " ++ tyText (argType arg)))) ;;
    errs_line ""
  else
    errs_line ("🔧 Function Definition: " ++ getName (fnName F) ++ "()") ;;
    errs_line ("   ↳ Return Type: " ++ tyText (returnType F)) ;;
    errs_line ("   ↳ Parameters: " ++ dec (arg_size F)) ;;
    errs_line ("   ↳ Basic Blocks: " ++ dec (N.of_nat (length (blocks F)))) ;;
    when (0 <? arg_size F)%N
      (errs_line "   ↳ Function Arguments:" ;;
       for_each (args F) (fun arg =>
         errs_line ("     • "
                    ++ (if hasName (argName arg) then getName (argName arg)
                        else "unnamed")
                    ++ " : " ++ tyText (argType arg)))) ;;
    errs_line "" ;;
    for_each_from 0 (blocks F) (analyzeBasicBlock Mod F) ;;
    errs_line "" ;;
    errs_line (rule "═" 78) ;;
    errs_line "".

(** *** [SkeletonPass::run] *)
Definition run : M PreservedAnalyses :=
  Mod <- getModule ;;
  errs_line "" ;;
  errs_line ("╔" ++ rule "═" 78 ++ "╗") ;;
  errs_line "║                           🔍 LLVM MODULE ANALYSIS                            ║" ;;
  errs_line ("╚" ++ rule "═" 78 ++ "╝") ;;
  errs_line ("📁 Module: " ++ moduleName Mod) ;;
  errs_line (rule "═" 78) ;;
  errs_line "" ;;
  for_each (functions Mod) (analyzeFunction Mod) ;;
  errs_line "✅ Analysis Complete!" ;;
  errs_line (rule "═" 79) ;;
  errs_line "" ;;
  ret PreservedAnalyses_all.

End SkeletonPass.

(* ================================================================== *)
(** ** Which arm of the cascade an instruction takes *)
(* ================================================================== *)

Module Classifier.
Import IR Stream SkeletonPass.

(** The arms of the cascade, in the order the pass tests them. *)
Inductive Kind : Type :=
| BinaryArithmetic | StackAllocation | Load | Store | Call | Branch
| Return | Compare | Cast | GenericOperator | Unknown.


Definition rank (k : Kind) : nat :=
  match k with
  | BinaryArithmetic => 0 | StackAllocation => 1 | Load => 2 | Store => 3
  | Call => 4 | Branch => 5 | Return => 6 | Compare => 7 | Cast => 8
  | GenericOperator => 9 | Unknown => 10
  end.

Definition Kind_eqb (a b : Kind) : bool := Nat.eqb (rank a) (rank b).

Definition isSome {A} (o : option A) : bool :=
  match o with Some _ => true | None => false end.

(** The test that guards each arm; the final [else] has none. *)
Definition matches (k : Kind) (I : Instruction) : bool :=
  match k with
  | BinaryArithmetic => isSome (dyn_cast_BinaryOperator I)
  | StackAllocation => isSome (dyn_cast_AllocaInst I)
  | Load => isSome (dyn_cast_LoadInst I)
  | Store => isSome (dyn_cast_StoreInst I)
  | Call => isSome (dyn_cast_CallInst I)
  | Branch => isSome (dyn_cast_BranchInst I)
  | Return => isSome (dyn_cast_ReturnInst I)
  | Compare => isSome (dyn_cast_CmpInst I)
  | Cast => isSome (dyn_cast_CastInst I)
  | GenericOperator => isSome (dyn_cast_Operator I)
  | Unknown => true
  end.

(** The [if / else if] chain of [analyzeInstruction] with the bodies of the
    arms left out. *)
Definition classify (I : Instruction) : Kind :=
  if isSome (dyn_cast_BinaryOperator I) then BinaryArithmetic
  else if isSome (dyn_cast_AllocaInst I) then StackAllocation
  else if isSome (dyn_cast_LoadInst I) then Load
  else if isSome (dyn_cast_StoreInst I) then Store
  else if isSome (dyn_cast_CallInst I) then Call
  else if isSome (dyn_cast_BranchInst I) then Branch
  else if isSome (dyn_cast_ReturnInst I) then Return
  else if isSome (dyn_cast_CmpInst I) then Compare
  else if isSome (dyn_cast_CastInst I) then Cast
  else if isSome (dyn_cast_Operator I) then GenericOperator
  else Unknown.

(** [k] is the first kind of [precedence] whose test [I] passes. *)
Definition first_match (k : Kind) (I : Instruction) : Prop :=
  matches k I = true /\
  forall k', rank k' < rank k -> matches k' I = false.


(** The text each arm opens its fragment with: the literal of its first
    statement, up to the colon where one follows.  Both headers of the call
    arm and of the branch arm are listed; the header of a void return extends
    that of a return with a value. *)
Definition armHeaders : list (string * Kind) :=
  [ ("   │      🔧 Binary Operation", BinaryArithmetic);
    ("   │      📦 Stack Allocation (alloca)", StackAllocation);
    ("   │      📥 Load from Memory", Load);
    ("   │      📤 Store to Memory", Store);
    ("   │      📞 Function Call", Call);
    ("   │      📞 Indirect Function Call", Call);
    ("   │      🔀 Conditional Branch", Branch);
    ("   │      ➡️  Unconditional Branch", Branch);
    ("   │      🔙 Return Statement", Return);
    ("   │      ⚖️  Comparison Instruction", Compare);
    ("   │      🔄 Cast Operation", Cast);
    ("   │      ⚙️  Other Operator", GenericOperator);
    ("   │      ❓ Unknown Instruction Type", Unknown) ].

(** The arm that wrote [line], read off the header it begins with. *)
Definition writtenKind (line : string) : option Kind :=
  option_map snd
    (find (fun hk => String.prefix (fst hk) line) armHeaders).



End Classifier.

(* ================================================================== *)
(** ** Reasoning about what a computation writes *)
(* ================================================================== *)

Module Emit.
Import IR Stream.

(** [m] returns [a], appends exactly [out] to the stream and leaves the
    module alone, from every world. *)
Definition emits {A} (m : M A) (a : A) (out : list string) : Prop :=
  forall w, m w = (a, {| ir := ir w; errs := errs w ++ out |}).

(** The lines [m] writes when started on module [Mod] with an empty
    stream. *)
Definition output {A} (m : M A) (Mod : Module) : list string :=
  errs (snd (m (mkWorld Mod []))).

(** The name a block or parameter is shown under: the pass's
    [x.hasName() ? x.getName() : "unnamed"]. *)
Definition shownName (nm : option string) : string :=
  if hasName nm then getName nm else "unnamed".

(** What a loop writes: the outputs of its iterations, in order. *)
Fixpoint collect_from {A} (pos : nat) (l : list A)
         (f : nat -> A -> list string) : list string :=
  match l with
  | [] => []
  | x :: r => f pos x ++ collect_from (S pos) r f
  end.

End Emit.

(* ================================================================== *)
(** ** A small module to run the pass on *)
(* ================================================================== *)

Module Examples.
Import IR.
Local Open Scope string_scope.

Definition i1 : Ty := mkTy "i1".
Definition i32 : Ty := mkTy "i32".
Definition i64 : Ty := mkTy "i64".
Definition float : Ty := mkTy "float".
Definition ptr : Ty := mkTy "ptr".
Definition void : Ty := mkTy "void".
Definition label : Ty := mkTy "label".

(** A data layout with 4-byte [i32] and [float] and 8-byte [i64] and
    pointers. *)
Definition layout : DataLayout :=
  mkDataLayout (fun t =>
    if (tyText t =? "i64") || (tyText t =? "ptr")
    then mkTypeSize 8 false
    else if (tyText t =? "i32") || (tyText t =? "float")
    then mkTypeSize 4 false
    else mkTypeSize 1 false).

Definition const_i32 (text : string) (bits : Z) : Value :=
  mkValue None i32 text (ConstantIntVal (mkAPInt 32 bits)).

Definition c1 : Value := const_i32 "i32 1" 1.
Definition c42 : Value := const_i32 "i32 42" 42.
Definition n : Value := mkValue (Some "n") i32 "i32 %n" ArgumentVal.
Definition a : Value := mkValue (Some "a") float "float %a" ArgumentVal.
Definition b : Value := mkValue (Some "b") float "float %b" ArgumentVal.
Definition unnamed_arg : Value := mkValue None i32 "i32 %0" ArgumentVal.
Definition sum : Value :=
  mkValue None i32 "  %3 = add i32 %n, 1" InstructionVal.

(** The second block of [main] carries no name. *)
Definition exit_block : Value := mkValue None label "label %2" BasicBlockVal.

Definition alloca_vla : Instruction :=
  mkInstruction "  %buf = alloca i32, i32 %n, align 4" ptr
                (AllocaInst i32 n 4).
Definition alloca_one : Instruction :=
  mkInstruction "  %x = alloca i32, align 4" ptr (AllocaInst i32 c1 4).
Definition zext_n : Instruction :=
  mkInstruction "  %w = zext i32 %n to i64" i64 (CastInst ZExt n).
Definition fcmp_ab : Instruction :=
  mkInstruction "  %c = fcmp olt float %a, %b" i1 (FCmpInst FCMP_OLT a b).
Definition icmp_n : Instruction :=
  mkInstruction "  %d = icmp slt i32 %n, 42" i1 (ICmpInst ICMP_SLT n c42).
Definition br_exit : Instruction :=
  mkInstruction "  br label %2" void (BranchInstUncond exit_block).
Definition ret_42 : Instruction :=
  mkInstruction "  ret i32 42" void (ReturnInst (Some c42)).
Definition ret_arg : Instruction :=
  mkInstruction "  ret i32 %0" void (ReturnInst (Some unnamed_arg)).
Definition ret_n : Instruction :=
  mkInstruction "  ret i32 %n" void (ReturnInst (Some n)).
Definition ret_sum : Instruction :=
  mkInstruction "  ret i32 %3" void (ReturnInst (Some sum)).

Definition entry : BasicBlock :=
  mkBasicBlock (Some "entry") [alloca_vla; zext_n; fcmp_ab; icmp_n; br_exit].
Definition exit_ : BasicBlock := mkBasicBlock None [ret_42].

Definition main : Function :=
  mkFunction (Some "main") i32 [mkArgument (Some "n") i32] [entry; exit_].
Definition puts : Function :=
  mkFunction (Some "puts") i32 [mkArgument None ptr] [].

Definition demo : Module := mkModule "demo.ll" layout [puts; main].
Definition empty : Module := mkModule "empty.ll" layout [].

(** A module whose only function allocates a variable-length array and then
    returns. *)
Definition vla_fn : Function :=
  mkFunction (Some "f") i32 [mkArgument (Some "n") i32]
             [mkBasicBlock (Some "entry") [alloca_vla; ret_42]].
Definition vla : Module := mkModule "vla.ll" layout [vla_fn].

(** A module without any [alloca], under two data layouts; in the second
    one every type takes 8 bytes. *)
Definition layout8 : DataLayout :=
  mkDataLayout (fun _ => mkTypeSize 8 false).
Definition answer : Function :=
  mkFunction (Some "answer") i32 [] [mkBasicBlock (Some "entry") [ret_42]].
Definition plain : Module := mkModule "plain.ll" layout [puts; answer].
Definition plain8 : Module := mkModule "plain.ll" layout8 [puts; answer].

(** A direct call of a two-parameter function whose second parameter has
    no name, and a [select] on the result of the comparison. *)
Definition add2_callee : Callee :=
  mkCallee (Some "add2") [mkArgument (Some "x") i32; mkArgument None i32].
Definition add2_value : Value :=
  mkValue (Some "add2") ptr "declare i32 @add2(i32, i32)" FunctionVal.
Definition call_add2 : Instruction :=
  mkInstruction "  %r = call i32 @add2(i32 %n, i32 42)" i32
                (CallInst (Some add2_callee) add2_value [n; c42]).
Definition d : Value :=
  mkValue (Some "d") i1 "  %d = icmp slt i32 %n, 42" InstructionVal.
Definition select_n : Instruction :=
  mkInstruction "  %s = select i1 %d, i32 %n, i32 42" i32
                (OtherInst Select [d; n; c42]).

End Examples.

(* ================================================================== *)
(** ** Where the data layout is consulted *)
(* ================================================================== *)

Module Layout.
Import IR SkeletonPass Classifier.

(** The instructions, blocks and functions that reach the [AllocaInst] arm,
    the one place where the pass calls [M.getDataLayout()]. *)
Definition allocates (I : Instruction) : bool :=
  isSome (dyn_cast_AllocaInst I).

Definition blockAllocates (BB : BasicBlock) : bool :=
  existsb allocates (instructions BB).

Definition functionAllocates (F : Function) : bool :=
  existsb blockAllocates (blocks F).

End Layout.

(* ================================================================== *)
(** ** Laws of the stream monad *)
(* ================================================================== *)

Import IR Stream SkeletonPass Classifier Emit.

Section EmitLaws.

Context {A B : Type}.

Lemma emits_ret (a : A) : emits (ret a) a [].
Proof.
  intros [i e]; unfold ret; simpl. now rewrite app_nil_r.
Qed.

Lemma emits_bind (m : M A) (k : A -> M B) a b o1 o2 :
  emits m a o1 -> emits (k a) b o2 -> emits (bind m k) b (o1 ++ o2).
Proof.
  intros Hm Hk w. unfold bind. rewrite Hm, Hk; simpl.
  now rewrite app_assoc.
Qed.

Lemma emits_eq (m : M A) a o o' : emits m a o -> o = o' -> emits m a o'.
Proof. now intros H <-. Qed.

Lemma emits_output (m : M A) a o Mod : emits m a o -> output m Mod = o.
Proof. intros H. unfold output. now rewrite H. Qed.

End EmitLaws.

Lemma emits_errs_line (s : string) : emits (errs_line s) tt [s].
Proof. intros w; reflexivity. Qed.

Lemma emits_line_bind {B} (s : string) (k : unit -> M B) b o :
  emits (k tt) b o -> emits (bind (errs_line s) k) b (s :: o).
Proof.
  intros Hk. change (s :: o) with ([s] ++ o).
  eapply emits_bind; [apply emits_errs_line | exact Hk].
Qed.

Lemma emits_when (c : bool) (m : M unit) o :
  emits m tt o -> emits (when c m) tt (if c then o else []).
Proof.
  intros H. destruct c; simpl; [exact H | apply emits_ret].
Qed.

Lemma emits_for_each_from {A} (l : list A) (body : nat -> A -> M unit)
      (f : nat -> A -> list string) :
  (forall pos x, emits (body pos x) tt (f pos x)) ->
  forall pos, emits (for_each_from pos l body) tt (collect_from pos l f).
Proof.
  intros Hbody. induction l as [|x r IH]; intros pos; simpl.
  - apply emits_ret.
  - eapply emits_bind; [apply Hbody | apply IH].
Qed.

Lemma emits_for_each {A} (l : list A) (body : A -> M unit)
      (f : A -> list string) :
  (forall x, emits (body x) tt (f x)) ->
  emits (for_each l body) tt (collect_from 0 l (fun _ x => f x)).
Proof.
  intros Hbody. unfold for_each.
  apply emits_for_each_from with (f := fun _ x => f x).
  intros _ x; apply Hbody.
Qed.

(** A loop whose body writes one line per element. *)
Lemma collect_from_map {A} (l : list A) (g : A -> string) pos :
  collect_from pos l (fun _ x => [g x]) = map g l.
Proof.
  revert pos; induction l as [|x r IH]; intros pos; simpl; [reflexivity|].
  now rewrite IH.
Qed.

Lemma collect_from_app {A} (l1 l2 : list A) f pos :
  collect_from pos (l1 ++ l2) f
  = collect_from pos l1 f ++ collect_from (pos + length l1) l2 f.
Proof.
  revert pos; induction l1 as [|x r IH]; intros pos; simpl.
  - now rewrite Nat.add_0_r.
  - rewrite IH, <- app_assoc, Nat.add_succ_r. reflexivity.
Qed.

Ltac emits_step :=
  first
    [ apply emits_errs_line
    | apply emits_ret
    | eapply emits_line_bind
    | eapply emits_for_each_from; intros
    | eapply emits_for_each; intros
    | eapply emits_bind ].

Ltac emits_go := repeat emits_step.

(* ================================================================== *)
(** ** What each arm of the cascade writes *)
(* ================================================================== *)

Section Arms.

Variable Mod : Module.
Variables (txt : string) (ty : Ty).

Lemma analyze_BinaryOperator o a b :
  emits (analyzeInstruction Mod (mkInstruction txt ty (BinaryOperator o a b))) tt
    [ ("   │      🔧 Binary Operation: " ++ binaryOpcodeName o)%string;
      ("   │         Operand 1: " ++ valueText a)%string;
      ("   │         Operand 2: " ++ valueText b)%string ].
Proof. unfold analyzeInstruction; simpl. emits_go. Qed.

Lemma analyze_AllocaInst t n al :
  emits (analyzeInstruction Mod (mkInstruction txt ty (AllocaInst t n al))) tt
    [ "   │      📦 Stack Allocation (alloca)";
      ("   │         Type: " ++ tyText t)%string;
      ("   │         Size: "
         ++ printOptional
              (getAllocationSize (mkAllocaInstView t n al) (dataLayout Mod))
         ++ " bytes")%string;
      ("   │         Alignment: " ++ dec al ++ " bytes")%string ].
Proof. unfold analyzeInstruction; simpl. emits_go. Qed.

Lemma analyze_LoadInst p al :
  emits (analyzeInstruction Mod (mkInstruction txt ty (LoadInst p al))) tt
    [ "   │      📥 Load from Memory";
      ("   │         Source: " ++ valueText p)%string;
      ("   │         Type: " ++ tyText ty)%string;
      ("   │         Alignment: " ++ dec al ++ " bytes")%string ].
Proof. unfold analyzeInstruction; simpl. emits_go. Qed.

Lemma analyze_StoreInst v p al :
  emits (analyzeInstruction Mod (mkInstruction txt ty (StoreInst v p al))) tt
    [ "   │      📤 Store to Memory";
      ("   │         Value: " ++ valueText v)%string;
      ("   │         Destination: " ++ valueText p)%string;
      ("   │         Alignment: " ++ dec al ++ " bytes")%string ].
Proof. unfold analyzeInstruction; simpl. emits_go. Qed.

Lemma analyze_CallInst_direct callee t xs :
  emits (analyzeInstruction Mod (mkInstruction txt ty (CallInst (Some callee) t xs))) tt
    ([ ("   │      📞 Function Call: " ++ getName (calleeName callee) ++ "()")%string;
       ("   │         Arguments: " ++ dec (N.of_nat (length xs)))%string ]
     ++ collect_from 0 xs (fun pos arg =>
          [ ("   │         Arg " ++ dec (counter_at pos) ++ ": "
               ++ valueText arg)%string ])
     ++ [ "   │         Target Function Signature:" ]
     ++ map (fun param =>
          ("   │           • " ++ shownName (argName param)
             ++ " : " ++ tyText (argType param))%string)
        (calleeArgs callee)).
Proof.
  unfold analyzeInstruction; simpl.
  eapply emits_eq; [emits_go|].
  simpl. rewrite collect_from_map. reflexivity.
Qed.

Lemma analyze_CallInst_indirect t xs :
  emits (analyzeInstruction Mod (mkInstruction txt ty (CallInst None t xs))) tt
    [ "   │      📞 Indirect Function Call";
      ("   │         Target: " ++ valueText t)%string ].
Proof. unfold analyzeInstruction; simpl. emits_go. Qed.

Lemma analyze_BranchInst_unconditional s :
  emits (analyzeInstruction Mod (mkInstruction txt ty (BranchInstUncond s))) tt
    [ "   │      ➡️  Unconditional Branch";
      ("   │         Target: " ++ getName (valueName s))%string ].
Proof. unfold analyzeInstruction; simpl. emits_go. Qed.

Lemma analyze_BranchInst_conditional c s0 s1 :
  emits (analyzeInstruction Mod (mkInstruction txt ty (BranchInstCond c s0 s1))) tt
    [ "   │      🔀 Conditional Branch";
      ("   │         Condition: " ++ valueText c)%string;
      ("   │         True Block: " ++ getName (valueName s0))%string;
      ("   │         False Block: " ++ getName (valueName s1))%string ].
Proof. unfold analyzeInstruction; simpl. emits_go. Qed.

Lemma analyze_ReturnInst_value retVal :
  emits (analyzeInstruction Mod (mkInstruction txt ty (ReturnInst (Some retVal)))) tt
    ([ "   │      🔙 Return Statement";
       ("   │         Type: " ++ tyText (valueType retVal))%string ]
     ++ match valueName retVal with
        | Some nm => [ ("   │         Value: " ++ nm)%string ]
        | None =>
            "   │         Value: (unnamed temporary)"
            :: match valueClass retVal with
               | InstructionVal =>
                   [ ("   │         Source: " ++ valueText retVal)%string ]
               | ConstantIntVal c =>
                   [ ("   │         Constant: "
                        ++ sdec (getSExtValue c))%string ]
               | _ => []
               end
        end).
Proof.
  unfold analyzeInstruction; simpl.
  destruct (valueName retVal) as [nm|] eqn:Hn; simpl.
  - emits_go.
  - unfold dyn_cast_Instruction, dyn_cast_ConstantInt.
    destruct (valueClass retVal); emits_go.
Qed.

Lemma analyze_ReturnInst_void :
  emits (analyzeInstruction Mod (mkInstruction txt ty (ReturnInst None))) tt
    [ "   │      🔙 Return Statement (void)" ].
Proof. unfold analyzeInstruction; simpl. emits_go. Qed.

Lemma analyze_ICmpInst p a b :
  emits (analyzeInstruction Mod (mkInstruction txt ty (ICmpInst p a b))) tt
    [ "   │      ⚖️  Comparison Instruction";
      "   │         Type: Integer Comparison";
      ("   │         Predicate: " ++ predicateName p)%string;
      ("   │         Left Operand: " ++ valueText a)%string;
      ("   │         Right Operand: " ++ valueText b)%string ].
Proof.
  unfold analyzeInstruction; simpl.
  eapply emits_eq; [emits_go | reflexivity].
Qed.

Lemma analyze_FCmpInst p a b :
  emits (analyzeInstruction Mod (mkInstruction txt ty (FCmpInst p a b))) tt
    [ "   │      ⚖️  Comparison Instruction";
      ("   │         Left Operand: " ++ valueText a)%string;
      ("   │         Right Operand: " ++ valueText b)%string ].
Proof.
  unfold analyzeInstruction; simpl.
  eapply emits_eq; [emits_go | reflexivity].
Qed.

Lemma analyze_CastInst o a :
  emits (analyzeInstruction Mod (mkInstruction txt ty (CastInst o a))) tt
    [ ("   │      🔄 Cast Operation: " ++ castOpcodeName o)%string;
      ("   │         From: " ++ tyText (valueType a))%string;
      ("   │         To: " ++ tyText ty)%string;
      ("   │         Source: " ++ valueText a)%string ].
Proof. unfold analyzeInstruction; simpl. emits_go. Qed.

Lemma analyze_OtherInst o xs :
  emits (analyzeInstruction Mod (mkInstruction txt ty (OtherInst o xs))) tt
    ([ ("   │      ⚙️  Other Operator: " ++ otherOpcodeName o)%string;
       ("   │         Operands: " ++ dec (N.of_nat (length xs)))%string ]
     ++ collect_from 0 xs (fun i operand =>
          [ ("   │         Op[" ++ dec (N.of_nat i) ++ "]: "
               ++ valueText operand)%string ])).
Proof.
  unfold analyzeInstruction; simpl.
  eapply emits_eq; [emits_go | reflexivity].
Qed.

End Arms.

Create HintDb arms discriminated.
#[local] Hint Resolve
  analyze_BinaryOperator analyze_AllocaInst analyze_LoadInst
  analyze_StoreInst analyze_CallInst_direct analyze_CallInst_indirect
  analyze_BranchInst_unconditional analyze_BranchInst_conditional
  analyze_ReturnInst_value analyze_ReturnInst_void analyze_ICmpInst
  analyze_FCmpInst analyze_CastInst analyze_OtherInst : arms.

(** Every instruction is analysed: the cascade writes some lines and
    returns. *)
Lemma analyzeInstruction_emits (Mod : Module) (I : Instruction) :
  exists out, emits (analyzeInstruction Mod I) tt out.
Proof.
  destruct I as [txt ty cls].
  destruct cls as [o a b|t n al|p al|v p al|[callee|] t xs|s|c s0 s1
                  |[rv|]|p a b|p a b|o a|o xs];
    eexists; eauto with arms.
Qed.

(** The rules built with [rule] are the literals of the source. *)
Lemma rules_are_the_literals :
  ("╔" ++ rule "═" 78 ++ "╗")%string = "╔══════════════════════════════════════════════════════════════════════════════╗" /\
  ("╚" ++ rule "═" 78 ++ "╝")%string = "╚══════════════════════════════════════════════════════════════════════════════╝" /\
  rule "═" 78 = "══════════════════════════════════════════════════════════════════════════════" /\
  rule "═" 79 = "═══════════════════════════════════════════════════════════════════════════════" /\
  interiorSeparator = "   ├─────────────────────────────────────────────────────" /\
  finalSeparator = "   └─────────────────────────────────────────────────────".
Proof. repeat split; reflexivity. Qed.

(** The closing banner as bytes: the two statements of the source end in one
    and in two newlines. *)
Example closing_banner_bytes :
  stream_text [ "✅ Analysis Complete!"; rule "═" 79; ""%string ]
  = ("✅ Analysis Complete!" ++ String "010" (rule "═" 79)
       ++ String "010" (String "010" ""))%string.
Proof. reflexivity. Qed.

(** A few fragments of the example module. *)
Example analyze_ret_n :
  output (analyzeInstruction Examples.demo Examples.ret_n) Examples.demo
  = [ "   │      🔙 Return Statement";
      ("   │         Type: " ++ "i32")%string;
      ("   │         Value: " ++ "n")%string ].
Proof. reflexivity. Qed.

Example analyze_ret_sum :
  output (analyzeInstruction Examples.demo Examples.ret_sum) Examples.demo
  = [ "   │      🔙 Return Statement";
      ("   │         Type: " ++ "i32")%string;
      "   │         Value: (unnamed temporary)";
      ("   │         Source: " ++ "  %3 = add i32 %n, 1")%string ].
Proof. reflexivity. Qed.

Example analyze_icmp_n :
  output (analyzeInstruction Examples.demo Examples.icmp_n) Examples.demo
  = [ "   │      ⚖️  Comparison Instruction";
      "   │         Type: Integer Comparison";
      ("   │         Predicate: " ++ "Signed Less Than (<)")%string;
      ("   │         Left Operand: " ++ "i32 %n")%string;
      ("   │         Right Operand: " ++ "i32 42")%string ].
Proof. reflexivity. Qed.

Example analyze_alloca_vla :
  output (analyzeInstruction Examples.demo Examples.alloca_vla) Examples.demo
  = [ "   │      📦 Stack Allocation (alloca)";
      ("   │         Type: " ++ "i32")%string;
      ("   │         Size: " ++ "None bytes")%string;
      ("   │         Alignment: " ++ "4 bytes")%string ].
Proof. reflexivity. Qed.

Example analyze_alloca_one :
  output (analyzeInstruction Examples.demo Examples.alloca_one) Examples.demo
  = [ "   │      📦 Stack Allocation (alloca)";
      ("   │         Type: " ++ "i32")%string;
      ("   │         Size: " ++ "4 bytes")%string;
      ("   │         Alignment: " ++ "4 bytes")%string ].
Proof. reflexivity. Qed.

(* ================================================================== *)
(** ** What the walk over blocks, functions and the module writes *)
(* ================================================================== *)

(** The lines an instruction's analysis writes are its [output]. *)
Lemma analyzeInstruction_output (Mod : Module) (I : Instruction) :
  emits (analyzeInstruction Mod I) tt (output (analyzeInstruction Mod I) Mod).
Proof.
  destruct (analyzeInstruction_emits Mod I) as [out H].
  now rewrite (emits_output _ _ _ Mod H).
Qed.

Lemma emits_if_line (c : bool) (s1 s2 : string) :
  emits (if c then errs_line s1 else errs_line s2) tt [if c then s1 else s2].
Proof. destruct c; apply emits_errs_line. Qed.

Lemma isBack_spec (F : Function) (pos : nat) :
  pos < length (blocks F) ->
  negb (isBack F pos) = (S pos <? length (blocks F))%nat.
Proof.
  intros H. unfold isBack.
  destruct (Nat.eqb_spec pos (Nat.pred (length (blocks F))));
    destruct (Nat.ltb_spec (S pos) (length (blocks F))); simpl; auto; lia.
Qed.

Lemma analyzeBasicBlock_emits (Mod : Module) (F : Function) (pos : nat)
      (BB : BasicBlock) :
  emits (analyzeBasicBlock Mod F pos BB) tt
    ([ ("   ┌─ Basic Block #" ++ dec (counter_at pos) ++ ": "
          ++ shownName (bbName BB))%string;
       ("   │  Instructions: " ++ dec (N.of_nat (length (instructions BB))))%string;
       "   │" ]
     ++ collect_from 0 (instructions BB) (fun ipos I =>
          [ ("   │  [" ++ dec (counter_at ipos) ++ "] " ++ instText I)%string ]
          ++ output (analyzeInstruction Mod I) Mod
          ++ [ "   │" ])
     ++ [ if negb (isBack F pos) then interiorSeparator
          else finalSeparator ]).
Proof.
  unfold analyzeBasicBlock.
  do 3 apply emits_line_bind.
  eapply emits_bind; [|apply emits_if_line].
  apply emits_for_each_from. intros ipos I.
  apply emits_line_bind.
  eapply emits_bind; [apply analyzeInstruction_output | apply emits_errs_line].
Qed.

Lemma analyzeBasicBlock_output (Mod : Module) (F : Function) (pos : nat)
      (BB : BasicBlock) :
  emits (analyzeBasicBlock Mod F pos BB) tt
        (output (analyzeBasicBlock Mod F pos BB) Mod).
Proof.
  pose proof (analyzeBasicBlock_emits Mod F pos BB) as H.
  now rewrite (emits_output _ _ _ Mod H).
Qed.

Lemma when_args_lines {A} (l : list A) (ls : list string) :
  length ls = length l ->
  (if (0 <? N.of_nat (length l))%N then ls else []) = ls.
Proof.
  intros H. destruct l; destruct ls; simpl in *; try discriminate; auto.
Qed.

Lemma analyzeFunction_declaration (Mod : Module) (F : Function) :
  blocks F = [] ->
  emits (analyzeFunction Mod F) tt
    ([ ("📋 External Function Declaration: " ++ getName (fnName F) ++ "()")%string;
       ("   ↳ Return Type: " ++ tyText (returnType F))%string;
       ("   ↳ Parameters: " ++ dec (arg_size F))%string ]
     ++ map (fun arg =>
          ("     • " ++ shownName (argName arg)
             ++ " : " ++ tyText (argType arg))%string) (args F)
     ++ [ ""%string ]).
Proof.
  intros Hb. unfold analyzeFunction, isDeclaration. rewrite Hb.
  do 3 apply emits_line_bind.
  eapply emits_bind; [|apply emits_errs_line].
  eapply emits_eq.
  - apply emits_when. apply emits_for_each. intros arg. apply emits_errs_line.
  - cbv beta. rewrite collect_from_map. unfold arg_size.
    apply when_args_lines. now rewrite length_map.
Qed.

Lemma analyzeFunction_definition (Mod : Module) (F : Function) :
  blocks F <> [] ->
  emits (analyzeFunction Mod F) tt
    ([ ("🔧 Function Definition: " ++ getName (fnName F) ++ "()")%string;
       ("   ↳ Return Type: " ++ tyText (returnType F))%string;
       ("   ↳ Parameters: " ++ dec (arg_size F))%string;
       ("   ↳ Basic Blocks: " ++ dec (N.of_nat (length (blocks F))))%string ]
     ++ (if (0 <? arg_size F)%N
         then "   ↳ Function Arguments:"
              :: map (fun arg =>
                   ("     • " ++ shownName (argName arg)
                      ++ " : " ++ tyText (argType arg))%string) (args F)
         else [])
     ++ [ ""%string ]
     ++ collect_from 0 (blocks F) (fun pos BB =>
          output (analyzeBasicBlock Mod F pos BB) Mod)
     ++ [ ""%string; rule "═" 78; ""%string ]).
Proof.
  intros Hb. unfold analyzeFunction, isDeclaration.
  destruct (blocks F) as [|B0 Bs] eqn:E; [congruence|]. rewrite <- E.
  do 4 apply emits_line_bind.
  eapply emits_bind.
  { eapply emits_eq.
    - apply emits_when. apply emits_line_bind.
      apply emits_for_each. intros arg. apply emits_errs_line.
    - cbv beta. rewrite collect_from_map. reflexivity. }
  apply emits_line_bind.
  eapply emits_bind.
  { apply emits_for_each_from. intros pos BB.
    apply analyzeBasicBlock_output. }
  do 2 apply emits_line_bind. apply emits_errs_line.
Qed.

Lemma analyzeFunction_output (Mod : Module) (F : Function) :
  emits (analyzeFunction Mod F) tt (output (analyzeFunction Mod F) Mod).
Proof.
  destruct (blocks F) as [|B0 Bs] eqn:E.
  - pose proof (analyzeFunction_declaration Mod F E) as H.
    now rewrite (emits_output _ _ _ Mod H).
  - assert (Hne : blocks F <> []) by congruence.
    pose proof (analyzeFunction_definition Mod F Hne) as H.
    now rewrite (emits_output _ _ _ Mod H).
Qed.

Lemma bind_getModule {B} (k : Module -> M B) (w : World) :
  bind getModule k w = k (ir w) w.
Proof. reflexivity. Qed.

(** The whole report: banner, one section per function, closing banner. *)
Lemma run_report (w : World) :
  run w =
  (PreservedAnalyses_all,
   {| ir := ir w;
      errs := errs w
        ++ [ ""%string;
             ("╔" ++ rule "═" 78 ++ "╗")%string;
             "║                           🔍 LLVM MODULE ANALYSIS                            ║";
             ("╚" ++ rule "═" 78 ++ "╝")%string;
             ("📁 Module: " ++ moduleName (ir w))%string;
             rule "═" 78;
             ""%string ]
        ++ collect_from 0 (functions (ir w)) (fun _ F =>
             output (analyzeFunction (ir w) F) (ir w))
        ++ [ "✅ Analysis Complete!"; rule "═" 79; ""%string ] |}).
Proof.
  unfold run. rewrite bind_getModule.
  match goal with |- ?m w = _ => assert (H : emits m PreservedAnalyses_all
    ([ ""%string;
       ("╔" ++ rule "═" 78 ++ "╗")%string;
       "║                           🔍 LLVM MODULE ANALYSIS                            ║";
       ("╚" ++ rule "═" 78 ++ "╝")%string;
       ("📁 Module: " ++ moduleName (ir w))%string;
       rule "═" 78;
       ""%string ]
     ++ collect_from 0 (functions (ir w)) (fun _ F =>
          output (analyzeFunction (ir w) F) (ir w))
     ++ [ "✅ Analysis Complete!"; rule "═" 79; ""%string ])) end.
  { do 7 apply emits_line_bind.
    eapply emits_bind.
    { apply emits_for_each. intros F. apply analyzeFunction_output. }
    do 3 apply emits_line_bind. apply emits_ret. }
  apply H.
Qed.

(* ================================================================== *)
(** ** The cascade as a classifier *)
(* ================================================================== *)


Lemma rank_inj (a b : Kind) : rank a = rank b -> a = b.
Proof. destruct a, b; simpl; intros H; try reflexivity; discriminate. Qed.

Lemma classify_matches (I : Instruction) : matches (classify I) I = true.
Proof. destruct I as [txt ty []]; reflexivity. Qed.

Lemma classify_least (I : Instruction) (k : Kind) :
  matches k I = true -> rank (classify I) <= rank k.
Proof.
  destruct I as [txt ty []]; destruct k; cbv; intros H;
    try discriminate H; repeat constructor.
Qed.

(** [Operator::classof] accepts every instruction, so the final [else] of
    the cascade is never taken. *)
Lemma classify_never_Unknown (I : Instruction) : classify I <> Unknown.
Proof. destruct I as [txt ty []]; discriminate. Qed.

Lemma first_match_classify (I : Instruction) (k : Kind) :
  first_match k I <-> k = classify I.
Proof.
  split.
  - intros [Hm Hlow]. apply rank_inj.
    pose proof (classify_least I k Hm) as Hle.
    destruct (Nat.eq_dec (rank k) (rank (classify I))) as [|Hne]; [assumption|].
    assert (Hlt : rank (classify I) < rank k) by lia.
    apply Hlow in Hlt. rewrite classify_matches in Hlt. discriminate.
  - intros ->. split; [apply classify_matches|].
    intros k' Hlt. destruct (matches k' I) eqn:E; [|reflexivity].
    apply classify_least in E. lia.
Qed.









(** The header a fragment opens with is that of the kind the cascade
    selected. *)
Lemma analyzeInstruction_writtenKind (Mod : Module) (I : Instruction) :
  exists first rest,
    emits (analyzeInstruction Mod I) tt (first :: rest) /\
    writtenKind first = Some (classify I).
Proof.
  destruct I as [txt ty cls].
  destruct cls as [o a b|t n al|p al|v p al|[callee|] t xs|s|c s0 s1
                  |[rv|]|p a b|p a b|o a|o xs];
    eexists; eexists;
    (split; [eapply emits_eq; [eauto with arms | reflexivity]
            | reflexivity]).
Qed.

(** An element of a loop's sequence has its output inside the loop's. *)
Lemma collect_from_In {A} (l : list A) (f : nat -> A -> list string)
      (pos : nat) (x : A) :
  In x l ->
  exists p pre post, collect_from pos l f = pre ++ f p x ++ post.
Proof.
  intros H. apply in_split in H. destruct H as (l1 & l2 & ->).
  rewrite collect_from_app. simpl.
  now exists (pos + length l1), (collect_from pos l1 f),
    (collect_from (S (pos + length l1)) l2 f).
Qed.

Lemma fragment_in_block (Mod : Module) (F : Function) (pos : nat)
      (BB : BasicBlock) (I : Instruction) :
  In I (instructions BB) ->
  exists pre post,
    output (analyzeBasicBlock Mod F pos BB) Mod
    = pre ++ output (analyzeInstruction Mod I) Mod ++ post.
Proof.
  intros HI.
  rewrite (emits_output _ _ _ Mod (analyzeBasicBlock_emits Mod F pos BB)).
  match goal with
  | |- context [collect_from 0 _ ?f] =>
      destruct (collect_from_In (instructions BB) f 0 I HI)
        as (p & pre & post & ->)
  end.
  match goal with
  | |- exists _ _, ?h ++ (?pre ++ (?l ++ ?o ++ ?b) ++ ?post) ++ ?s = _ =>
      exists (h ++ pre ++ l), (b ++ post ++ s)
  end.
  rewrite <- !app_assoc. reflexivity.
Qed.

Lemma fragment_in_function (Mod : Module) (F : Function) (BB : BasicBlock)
      (I : Instruction) :
  In BB (blocks F) -> In I (instructions BB) ->
  exists pre post,
    output (analyzeFunction Mod F) Mod
    = pre ++ output (analyzeInstruction Mod I) Mod ++ post.
Proof.
  intros HBB HI.
  assert (Hne : blocks F <> []) by (intros E; rewrite E in HBB; exact HBB).
  rewrite (emits_output _ _ _ Mod (analyzeFunction_definition Mod F Hne)).
  match goal with
  | |- context [collect_from 0 (blocks F) ?f] =>
      destruct (collect_from_In (blocks F) f 0 BB HBB)
        as (p & pre & post & ->)
  end.
  cbv beta.
  destruct (fragment_in_block Mod F p BB I HI) as (pre' & post' & ->).
  match goal with
  | |- exists _ _,
         ?h ++ ?a ++ ?e ++ (?pre ++ (?pre' ++ ?o ++ ?post') ++ ?post) ++ ?s
         = _ =>
      exists (h ++ a ++ e ++ pre ++ pre'), (post' ++ post ++ s)
  end.
  rewrite <- !app_assoc. reflexivity.
Qed.

(** Every instruction of the module has its fragment in the report. *)
Lemma fragment_in_report (w : World) (F : Function) (BB : BasicBlock)
      (I : Instruction) :
  In F (functions (ir w)) -> In BB (blocks F) -> In I (instructions BB) ->
  exists pre post,
    errs (snd (run w))
    = errs w ++ pre ++ output (analyzeInstruction (ir w) I) (ir w) ++ post.
Proof.
  intros HF HBB HI. rewrite run_report. cbn [snd errs].
  match goal with
  | |- context [collect_from 0 (functions (ir w)) ?f] =>
      destruct (collect_from_In (functions (ir w)) f 0 F HF)
        as (p & pre & post & ->)
  end.
  cbv beta.
  destruct (fragment_in_function (ir w) F BB I HBB HI)
    as (pre' & post' & ->).
  match goal with
  | |- exists _ _,
         _ ++ ?h ++ (?pre ++ (?pre' ++ ?o ++ ?post') ++ ?post) ++ ?s = _ =>
      exists (h ++ pre ++ pre'), (post' ++ post ++ s)
  end.
  rewrite <- !app_assoc. reflexivity.
Qed.

(* ================================================================== *)
(** ** The claims of the specification *)
(* ================================================================== *)


(** C2.  The first structural match wins, in what is written.  When an
    instruction passes the tests of two kinds, its fragment opens with the
    header of the kind the cascade selects, which is never the later-listed
    of the two and is listed no later than the earlier one; it is the earlier
    one when no kind before it matches.  An instruction that is a cast (and,
    like every instruction, an operator) is written by the cast arm: its
    fragment is the four statements of that arm.  Wherever the instruction
    stands in the module, [run] writes that fragment into the report. *)
Theorem C2_first_match_wins (Mod : Module) (I : Instruction) (k1 k2 : Kind) :
  matches k1 I = true ->
  matches k2 I = true ->
  rank k1 < rank k2 ->
  exists first rest,
    emits (analyzeInstruction Mod I) tt (first :: rest) /\
    writtenKind first = Some (classify I) /\
    writtenKind first <> Some k2 /\
    classify I <> k2 /\
    rank (classify I) <= rank k1 /\
    ((forall k, rank k < rank k1 -> matches k I = false) ->
     classify I = k1 /\ writtenKind first = Some k1) /\
    (k1 = Cast -> k2 = GenericOperator ->
     classify I = Cast /\
     forall cast, dyn_cast_CastInst I = Some cast ->
       first :: rest
       = [ ("   │      🔄 Cast Operation: " ++ castOpcodeName (cast_opc cast))%string;
           ("   │         From: " ++ tyText (cast_SrcTy cast))%string;
           ("   │         To: " ++ tyText (cast_DestTy cast))%string;
           ("   │         Source: " ++ valueText (cast_Op0 cast))%string ]) /\
    (forall w F BB,
       ir w = Mod ->
       In F (functions Mod) -> In BB (blocks F) -> In I (instructions BB) ->
       exists pre post,
         errs (snd (run w)) = errs w ++ pre ++ (first :: rest) ++ post).
Proof.
  intros H1 H2 Hlt.
  pose proof (classify_least I k1 H1) as Hle.
  destruct (analyzeInstruction_writtenKind Mod I) as (first & rest & He & Hw).
  exists first, rest.
  assert (Hne : classify I <> k2) by (intros E; rewrite E in Hle; lia).
  split; [exact He|]. split; [exact Hw|].
  split; [rewrite Hw; congruence|]. split; [exact Hne|].
  split; [exact Hle|]. split; [|split].
  - intros Hlow.
    assert (E : classify I = k1)
      by (symmetry; apply first_match_classify; now split).
    split; [exact E | now rewrite Hw, E].
  - intros -> _.
    destruct I as [txt ty []]; try discriminate H1.
    split; [reflexivity|].
    intros cast Hc. injection Hc as <-.
    pose proof (emits_output _ _ _ Mod He) as E1.
    pose proof (emits_output _ _ _ Mod
                  (analyze_CastInst Mod txt ty opc Op0)) as E2.
    rewrite <- E1. exact E2.
  - intros w F BB <- HF HBB HI.
    rewrite <- (emits_output _ _ _ (ir w) He).
    now apply (fragment_in_report w F BB I).
Qed.

Lemma C2_first_match_wins_witness :
  matches Cast Examples.zext_n = true /\
  matches GenericOperator Examples.zext_n = true /\
  exists pre post,
    output run Examples.demo
    = pre
      ++ [ ("   │      🔄 Cast Operation: " ++ "zext")%string;
           ("   │         From: " ++ "i32")%string;
           ("   │         To: " ++ "i64")%string;
           ("   │         Source: " ++ "i32 %n")%string ]
      ++ post.
Proof.
  split; [reflexivity|]. split; [reflexivity|].
  assert (Hlt : rank Cast < rank GenericOperator) by (simpl; lia).
  destruct (C2_first_match_wins Examples.demo Examples.zext_n
              Cast GenericOperator eq_refl eq_refl Hlt)
    as (first & rest & _ & _ & _ & _ & _ & _ & Hcast & Hrun).
  destruct (Hcast eq_refl eq_refl) as [_ Hfrag].
  specialize (Hfrag _ eq_refl).
  destruct (Hrun (mkWorld Examples.demo []) Examples.main Examples.entry
              eq_refl) as (pre & post & E).
  - right; left; reflexivity.
  - left; reflexivity.
  - right; left; reflexivity.
  - exists pre, post. unfold output. rewrite E, Hfrag. reflexivity.
Defined.

(** C3, as the specification states it, fails: a return of the literal 42
    writes the placeholder line for an unnamed value and the constant line
    after it, not the constant in place of the placeholder. *)
Lemma C3_literal_return_keeps_placeholder :
  emits (analyzeInstruction Examples.demo Examples.ret_42) tt
    [ "   │      🔙 Return Statement";
      ("   │         Type: " ++ "i32")%string;
      "   │         Value: (unnamed temporary)";
      ("   │         Constant: " ++ "42")%string ]
  /\ emits (analyzeInstruction Examples.demo Examples.ret_arg) tt
    [ "   │      🔙 Return Statement";
      ("   │         Type: " ++ "i32")%string;
      "   │         Value: (unnamed temporary)" ].
Proof.
  split.
  - exact (analyze_ReturnInst_value Examples.demo _ _ Examples.c42).
  - exact (analyze_ReturnInst_value Examples.demo _ _ Examples.unnamed_arg).
Qed.

(** C3, amended.  A value-carrying return writes its header, the type of the
    returned value, and then: the value's name when it has one; otherwise the
    placeholder line for an unnamed value, followed by the text of the source
    instruction when the value is an instruction result, by the sign-extended
    integer when it is an integer constant (42 for the literal 42 of type
    i32, -1 for the 32-bit pattern of all ones), and by nothing when it is
    neither. *)
Theorem C3_return_value_rendering (Mod : Module) (txt : string) (ty : Ty)
        (retVal : Value) :
  emits (analyzeInstruction Mod
           (mkInstruction txt ty (ReturnInst (Some retVal)))) tt
    ([ "   │      🔙 Return Statement";
       ("   │         Type: " ++ tyText (valueType retVal))%string ]
     ++ match valueName retVal with
        | Some nm => [ ("   │         Value: " ++ nm)%string ]
        | None =>
            "   │         Value: (unnamed temporary)"
            :: match valueClass retVal with
               | InstructionVal =>
                   [ ("   │         Source: " ++ valueText retVal)%string ]
               | ConstantIntVal c =>
                   [ ("   │         Constant: "
                        ++ sdec (getSExtValue c))%string ]
               | _ => []
               end
        end)
  /\ sdec (getSExtValue (mkAPInt 32 42)) = "42"%string
  /\ sdec (getSExtValue (mkAPInt 32 4294967295)) = "-1"%string.
Proof.
  split; [apply analyze_ReturnInst_value|]. split; reflexivity.
Qed.

(** C4.  The placeholder is written for a block or a parameter without a
    name, but not for the target of a branch: the name of an unnamed target
    block is written as the empty string, after [Target: ], [True Block: ]
    and [False Block: ] alike. *)
Theorem C4_unnamed_branch_target_is_empty (Mod : Module) (txt : string)
        (ty vty : Ty) (vtxt : string) (cls : ValueClass) (c : Value)
        (F : Function) (pos : nat) (insts : list Instruction) :
  emits (analyzeInstruction Mod
           (mkInstruction txt ty
              (BranchInstUncond (mkValue None vty vtxt cls)))) tt
    [ "   │      ➡️  Unconditional Branch";
      "   │         Target: " ]
  /\ emits (analyzeInstruction Mod
              (mkInstruction txt ty
                 (BranchInstCond c (mkValue None vty vtxt cls)
                                   (mkValue None vty vtxt cls)))) tt
    [ "   │      🔀 Conditional Branch";
      ("   │         Condition: " ++ valueText c)%string;
      "   │         True Block: ";
      "   │         False Block: " ]
  /\ exists rest,
       emits (analyzeBasicBlock Mod F pos (mkBasicBlock None insts)) tt
         (("   ┌─ Basic Block #" ++ dec (counter_at pos) ++ ": unnamed")%string
          :: rest).
Proof.
  split; [|split].
  - eapply emits_eq; [apply analyze_BranchInst_unconditional|].
    reflexivity.
  - eapply emits_eq; [apply analyze_BranchInst_conditional|].
    reflexivity.
  - eexists. eapply emits_eq; [apply analyzeBasicBlock_emits | reflexivity].
Qed.

(** C6.  [run] does not change the module it is given and always returns
    [PreservedAnalyses::all()]; all it does is append lines to the
    stream. *)
Theorem C6_run_preserves_module (w : World) :
  fst (run w) = PreservedAnalyses_all /\
  ir (snd (run w)) = ir w /\
  exists out, errs (snd (run w)) = errs w ++ out.
Proof.
  rewrite run_report. simpl. repeat split. eexists. reflexivity.
Qed.

(** C7.  In a function of N blocks, the block at (1-based) position
    [pos + 1] writes its header, the fragments of its instructions, and
    then, as its last line, the interior separator when [pos + 1 < N] and
    the final separator when it is the last block; the two separators
    differ, and the only block of a one-block function writes the final
    one. *)
Theorem C7_last_block_marker (Mod : Module) (F : Function) (pos : nat)
        (BB : BasicBlock) :
  nth_error (blocks F) pos = Some BB ->
  interiorSeparator <> finalSeparator /\
  emits (analyzeBasicBlock Mod F pos BB) tt
    ([ ("   ┌─ Basic Block #" ++ dec (counter_at pos) ++ ": "
          ++ shownName (bbName BB))%string;
       ("   │  Instructions: " ++ dec (N.of_nat (length (instructions BB))))%string;
       "   │" ]
     ++ collect_from 0 (instructions BB) (fun ipos I =>
          [ ("   │  [" ++ dec (counter_at ipos) ++ "] " ++ instText I)%string ]
          ++ output (analyzeInstruction Mod I) Mod
          ++ [ "   │" ])
     ++ [ if (S pos <? length (blocks F))%nat then interiorSeparator
          else finalSeparator ]) /\
  (length (blocks F) = 1 ->
   (if (S pos <? length (blocks F))%nat then interiorSeparator
    else finalSeparator) = finalSeparator).
Proof.
  intros Hnth.
  assert (Hlt : pos < length (blocks F)).
  { apply nth_error_Some. congruence. }
  split; [|split].
  - intros E. vm_compute in E. discriminate E.
  - rewrite <- (isBack_spec F pos Hlt). apply analyzeBasicBlock_emits.
  - intros H1. destruct (Nat.ltb_spec (S pos) (length (blocks F)));
      [lia | reflexivity].
Qed.

Lemma C7_last_block_marker_witness :
  nth_error (blocks Examples.main) 0 = Some Examples.entry /\
  exists body,
    output (analyzeBasicBlock Examples.demo Examples.main 0 Examples.entry)
           Examples.demo
    = body ++ [interiorSeparator].
Proof.
  split; [reflexivity|].
  destruct (C7_last_block_marker Examples.demo Examples.main 0 Examples.entry
              eq_refl) as (_ & H & _).
  rewrite (emits_output _ _ _ Examples.demo H).
  eexists. rewrite app_assoc. reflexivity.
Defined.

(** C8.  A function without basic blocks is written as a declaration: its
    name, return type, parameter count and parameters, and nothing else, so
    no block or instruction is visited.  A function with at least one block
    is written as a definition: the same fields and the number of blocks,
    then the fragment of every block, in order, then the closing rule. *)
Theorem C8_declaration_definition_split (Mod : Module) (F : Function) :
  (blocks F = [] ->
   emits (analyzeFunction Mod F) tt
     ([ ("📋 External Function Declaration: " ++ getName (fnName F) ++ "()")%string;
        ("   ↳ Return Type: " ++ tyText (returnType F))%string;
        ("   ↳ Parameters: " ++ dec (arg_size F))%string ]
      ++ map (fun arg =>
           ("     • " ++ shownName (argName arg)
              ++ " : " ++ tyText (argType arg))%string) (args F)
      ++ [ ""%string ])) /\
  (blocks F <> [] ->
   emits (analyzeFunction Mod F) tt
     ([ ("🔧 Function Definition: " ++ getName (fnName F) ++ "()")%string;
        ("   ↳ Return Type: " ++ tyText (returnType F))%string;
        ("   ↳ Parameters: " ++ dec (arg_size F))%string;
        ("   ↳ Basic Blocks: " ++ dec (N.of_nat (length (blocks F))))%string ]
      ++ (if (0 <? arg_size F)%N
          then "   ↳ Function Arguments:"
               :: map (fun arg =>
                    ("     • " ++ shownName (argName arg)
                       ++ " : " ++ tyText (argType arg))%string) (args F)
          else [])
      ++ [ ""%string ]
      ++ collect_from 0 (blocks F) (fun pos BB =>
           output (analyzeBasicBlock Mod F pos BB) Mod)
      ++ [ ""%string; rule "═" 78; ""%string ])).
Proof.
  split.
  - apply analyzeFunction_declaration.
  - apply analyzeFunction_definition.
Qed.

Lemma C8_declaration_definition_split_witness :
  blocks Examples.puts = [] /\
  blocks Examples.main <> [] /\
  output (analyzeFunction Examples.demo Examples.puts) Examples.demo
  = [ ("📋 External Function Declaration: " ++ "puts()")%string;
      ("   ↳ Return Type: " ++ "i32")%string;
      ("   ↳ Parameters: " ++ "1")%string;
      ("     • " ++ "unnamed : ptr")%string;
      ""%string ] /\
  exists header,
    output (analyzeFunction Examples.demo Examples.main) Examples.demo
    = header
      ++ output (analyzeBasicBlock Examples.demo Examples.main 0
                   Examples.entry) Examples.demo
      ++ output (analyzeBasicBlock Examples.demo Examples.main 1
                   Examples.exit_) Examples.demo
      ++ [ ""%string; rule "═" 78; ""%string ].
Proof.
  assert (Hmain : blocks Examples.main <> []) by discriminate.
  split; [reflexivity|]. split; [exact Hmain|]. split.
  - rewrite (emits_output _ _ _ Examples.demo
               (proj1 (C8_declaration_definition_split
                         Examples.demo Examples.puts) eq_refl)).
    reflexivity.
  - rewrite (emits_output _ _ _ Examples.demo
               (proj2 (C8_declaration_definition_split
                         Examples.demo Examples.main) Hmain)).
    exists (firstn 7 (output (analyzeFunction Examples.demo Examples.main)
                             Examples.demo)).
    vm_compute. reflexivity.
Defined.

(** C9, as the specification states it, fails: a floating-point comparison
    writes its header and its two operands, with neither a category nor a
    predicate line. *)
Lemma C9_float_compare_has_no_category :
  emits (analyzeInstruction Examples.demo Examples.fcmp_ab) tt
    [ "   │      ⚖️  Comparison Instruction";
      ("   │         Left Operand: " ++ "float %a")%string;
      ("   │         Right Operand: " ++ "float %b")%string ].
Proof.
  exact (analyze_FCmpInst Examples.demo _ _ FCMP_OLT Examples.a Examples.b).
Qed.

(** C9, amended.  An integer comparison writes its header, the category
    line [Integer Comparison], the name of its predicate (one of the six
    named ones, [Other] for the unsigned orderings), and its left and right
    operand.  A comparison that is not an integer comparison writes its
    header and its left and right operand only. *)
Theorem C9_compare_rendering (Mod : Module) (txt : string) (ty : Ty)
        (a b : Value) :
  (forall p,
     emits (analyzeInstruction Mod (mkInstruction txt ty (ICmpInst p a b))) tt
       [ "   │      ⚖️  Comparison Instruction";
         "   │         Type: Integer Comparison";
         ("   │         Predicate: " ++ predicateName p)%string;
         ("   │         Left Operand: " ++ valueText a)%string;
         ("   │         Right Operand: " ++ valueText b)%string ]) /\
  (forall p,
     emits (analyzeInstruction Mod (mkInstruction txt ty (FCmpInst p a b))) tt
       [ "   │      ⚖️  Comparison Instruction";
         ("   │         Left Operand: " ++ valueText a)%string;
         ("   │         Right Operand: " ++ valueText b)%string ]) /\
  map predicateName
      [ICMP_EQ; ICMP_NE; ICMP_SGT; ICMP_SGE; ICMP_SLT; ICMP_SLE]
  = [ "Equal (==)"; "Not Equal (!=)"; "Signed Greater Than (>)";
      "Signed Greater or Equal (>=)"; "Signed Less Than (<)";
      "Signed Less or Equal (<=)" ]%string /\
  map predicateName [ICMP_UGT; ICMP_UGE; ICMP_ULT; ICMP_ULE]
  = [ "Other"; "Other"; "Other"; "Other" ]%string.
Proof.
  split; [|split; [|split; reflexivity]].
  - intros p. apply analyze_ICmpInst.
  - intros p. apply analyze_FCmpInst.
Qed.

(** C10.  On a module without functions [run] writes the opening banner
    with the module's name, then at once the closing banner, and returns
    [PreservedAnalyses::all()]. *)
Theorem C10_empty_module (w : World) :
  functions (ir w) = [] ->
  run w =
  (PreservedAnalyses_all,
   {| ir := ir w;
      errs := errs w
        ++ [ ""%string;
             ("╔" ++ rule "═" 78 ++ "╗")%string;
             "║                           🔍 LLVM MODULE ANALYSIS                            ║";
             ("╚" ++ rule "═" 78 ++ "╝")%string;
             ("📁 Module: " ++ moduleName (ir w))%string;
             rule "═" 78;
             ""%string;
             "✅ Analysis Complete!";
             rule "═" 79;
             ""%string ] |}).
Proof.
  intros H. rewrite run_report, H. reflexivity.
Qed.

Lemma C10_empty_module_witness :
  functions Examples.empty = [] /\
  run (mkWorld Examples.empty []) =
  (PreservedAnalyses_all,
   mkWorld Examples.empty
     [ ""%string;
       ("╔" ++ rule "═" 78 ++ "╗")%string;
       "║                           🔍 LLVM MODULE ANALYSIS                            ║";
       ("╚" ++ rule "═" 78 ++ "╝")%string;
       ("📁 Module: " ++ "empty.ll")%string;
       rule "═" 78;
       ""%string;
       "✅ Analysis Complete!";
       rule "═" 79;
       ""%string ]).
Proof.
  split; [reflexivity|].
  exact (C10_empty_module (mkWorld Examples.empty []) eq_refl).
Defined.

(* ================================================================== *)
(** ** Further properties of the pass *)
(* ================================================================== *)

Import Layout.

Lemma collect_from_shift {A} (l : list A) (g : A -> list string) p q :
  collect_from p l (fun _ x => g x) = collect_from q l (fun _ x => g x).
Proof.
  revert p q; induction l as [|x r IH]; intros p q; simpl; [reflexivity|].
  now rewrite (IH (S p) (S q)).
Qed.

Lemma collect_from_ext {A} (l : list A) f g pos :
  (forall p x, In x l -> f p x = g p x) ->
  collect_from pos l f = collect_from pos l g.
Proof.
  revert pos; induction l as [|x r IH]; intros pos H; simpl; [reflexivity|].
  rewrite H by (left; reflexivity).
  rewrite IH; [reflexivity|]. intros p y Hy. apply H. now right.
Qed.

Lemma for_each_from_ext {A} (l : list A) (body body' : nat -> A -> M unit)
      pos :
  (forall p x, In x l -> body p x = body' p x) ->
  for_each_from pos l body = for_each_from pos l body'.
Proof.
  revert pos; induction l as [|x r IH]; intros pos H; simpl; [reflexivity|].
  rewrite H by (left; reflexivity).
  rewrite (IH (S pos)); [reflexivity|]. intros p y Hy. apply H. now right.
Qed.

(** What [run] appends is its [output] on the module. *)
Lemma run_output (w : World) :
  run w = (PreservedAnalyses_all,
           {| ir := ir w; errs := errs w ++ output run (ir w) |}).
Proof.
  rewrite run_report. unfold output. rewrite run_report. reflexivity.
Qed.

(** X1.  The sections of the functions appear between the two banners in the
    order of the module: the sections of the functions of any initial part of
    the module come before those of the rest. *)
Theorem X1_functions_in_module_order (w : World) (fs1 fs2 : list Function) :
  functions (ir w) = fs1 ++ fs2 ->
  run w =
  (PreservedAnalyses_all,
   {| ir := ir w;
      errs := errs w
        ++ [ ""%string;
             "╔══════════════════════════════════════════════════════════════════════════════╗";
             "║                           🔍 LLVM MODULE ANALYSIS                            ║";
             "╚══════════════════════════════════════════════════════════════════════════════╝";
             ("📁 Module: " ++ moduleName (ir w))%string;
             "══════════════════════════════════════════════════════════════════════════════";
             ""%string ]
        ++ collect_from 0 fs1 (fun _ F =>
             output (analyzeFunction (ir w) F) (ir w))
        ++ collect_from 0 fs2 (fun _ F =>
             output (analyzeFunction (ir w) F) (ir w))
        ++ [ "✅ Analysis Complete!";
             "═══════════════════════════════════════════════════════════════════════════════";
             ""%string ] |}).
Proof.
  intros H. rewrite run_report, H, collect_from_app.
  rewrite (collect_from_shift fs2 _ (0 + length fs1) 0).
  rewrite <- app_assoc. reflexivity.
Qed.

Lemma X1_functions_in_module_order_witness :
  functions Examples.demo = [Examples.puts] ++ [Examples.main] /\
  output run Examples.demo
  = [ ""%string;
      "╔══════════════════════════════════════════════════════════════════════════════╗";
      "║                           🔍 LLVM MODULE ANALYSIS                            ║";
      "╚══════════════════════════════════════════════════════════════════════════════╝";
      ("📁 Module: " ++ "demo.ll")%string;
      "══════════════════════════════════════════════════════════════════════════════";
      ""%string ]
    ++ output (analyzeFunction Examples.demo Examples.puts) Examples.demo
    ++ output (analyzeFunction Examples.demo Examples.main) Examples.demo
    ++ [ "✅ Analysis Complete!";
         "═══════════════════════════════════════════════════════════════════════════════";
         ""%string ].
Proof.
  split; [reflexivity|].
  unfold output at 1.
  rewrite (X1_functions_in_module_order (mkWorld Examples.demo [])
             [Examples.puts] [Examples.main] eq_refl).
  vm_compute. reflexivity.
Defined.

(** X2.  The lines a run appends depend on the module alone, not on what is
    already on the stream; so a second run on the world the first one left
    appends the same report once more, and the module is still the one the
    first run started from. *)
Theorem X2_second_run_repeats_report (w : World) :
  errs (snd (run w)) = errs w ++ output run (ir w) /\
  run (snd (run w)) =
  (PreservedAnalyses_all,
   {| ir := ir w;
      errs := errs w ++ output run (ir w) ++ output run (ir w) |}).
Proof.
  split.
  - now rewrite run_output.
  - rewrite (run_output w). simpl snd. rewrite run_output. simpl.
    now rewrite <- app_assoc.
Qed.

Lemma analyzeInstruction_layout (Mod Mod' : Module) (I : Instruction) :
  dataLayout Mod = dataLayout Mod' \/ allocates I = false ->
  analyzeInstruction Mod I = analyzeInstruction Mod' I.
Proof.
  intros H. destruct I as [txt ty cls].
  destruct cls; try reflexivity.
  destruct H as [H|H]; [|discriminate H].
  unfold analyzeInstruction; simpl. now rewrite H.
Qed.

Lemma analyzeBasicBlock_layout (Mod Mod' : Module) (F : Function) (pos : nat)
      (BB : BasicBlock) :
  dataLayout Mod = dataLayout Mod' \/ blockAllocates BB = false ->
  analyzeBasicBlock Mod F pos BB = analyzeBasicBlock Mod' F pos BB.
Proof.
  intros H. unfold analyzeBasicBlock.
  rewrite (for_each_from_ext (instructions BB) _
             (fun ipos I =>
                bind (errs_line ("   │  [" ++ dec (counter_at ipos)
                                   ++ "] " ++ instText I)%string)
                  (fun _ => bind (analyzeInstruction Mod' I)
                     (fun _ => errs_line "   │")))); [reflexivity|].
  intros p I HI. rewrite (analyzeInstruction_layout Mod Mod' I); [reflexivity|].
  destruct H as [H|H]; [now left|right].
  unfold blockAllocates in H.
  destruct (allocates I) eqn:E; [|reflexivity].
  assert (existsb allocates (instructions BB) = true)
    by (apply existsb_exists; eauto).
  congruence.
Qed.

Lemma analyzeFunction_layout (Mod Mod' : Module) (F : Function) :
  dataLayout Mod = dataLayout Mod' \/ functionAllocates F = false ->
  analyzeFunction Mod F = analyzeFunction Mod' F.
Proof.
  intros H. unfold analyzeFunction.
  rewrite (for_each_from_ext (blocks F) (analyzeBasicBlock Mod F)
             (analyzeBasicBlock Mod' F)); [reflexivity|].
  intros p BB HBB. apply analyzeBasicBlock_layout.
  destruct H as [H|H]; [now left|right].
  unfold functionAllocates in H.
  destruct (blockAllocates BB) eqn:E; [|reflexivity].
  assert (existsb blockAllocates (blocks F) = true)
    by (apply existsb_exists; eauto).
  congruence.
Qed.

(** X4.  The section of a function depends on the module it is in only
    through the data layout, and not on the module at all when the function
    has no [alloca]. *)
Theorem X4_function_section_layout (Mod Mod' : Module) (F : Function) :
  dataLayout Mod = dataLayout Mod' \/ functionAllocates F = false ->
  analyzeFunction Mod F = analyzeFunction Mod' F.
Proof. apply analyzeFunction_layout. Qed.

Lemma X4_function_section_layout_witness :
  dataLayout Examples.plain <> dataLayout Examples.plain8 /\
  functionAllocates Examples.answer = false /\
  analyzeFunction Examples.plain Examples.answer
  = analyzeFunction Examples.plain8 Examples.answer /\
  functionAllocates Examples.main = true /\
  dataLayout Examples.demo = dataLayout Examples.vla /\
  analyzeFunction Examples.demo Examples.main
  = analyzeFunction Examples.vla Examples.main.
Proof.
  split; [|split; [reflexivity|split; [|split; [reflexivity|split]]]].
  - intros E.
    apply (f_equal (fun DL => Quantity (getTypeAllocSize DL Examples.i32)))
      in E.
    discriminate E.
  - apply (X4_function_section_layout Examples.plain Examples.plain8
             Examples.answer).
    right. reflexivity.
  - reflexivity.
  - apply (X4_function_section_layout Examples.demo Examples.vla
             Examples.main).
    left. reflexivity.
Defined.

(** X5.  The report of a module without any [alloca] is the same under every
    data layout: two modules with the same name and the same functions, none
    of which allocates, get the same report. *)
Theorem X5_report_without_alloca_ignores_layout (Mod Mod' : Module) :
  moduleName Mod = moduleName Mod' ->
  functions Mod = functions Mod' ->
  forallb (fun F => negb (functionAllocates F)) (functions Mod) = true ->
  output run Mod = output run Mod'.
Proof.
  intros Hn Hf Hno. unfold output. rewrite !run_report. simpl.
  rewrite Hn, <- Hf. do 8 f_equal.
  apply collect_from_ext. intros p F HF.
  rewrite forallb_forall in Hno. specialize (Hno F HF).
  rewrite (analyzeFunction_layout Mod Mod' F).
  - pose proof (analyzeFunction_output Mod' F) as H1.
    exact (eq_trans (emits_output _ _ _ Mod H1)
                    (eq_sym (emits_output _ _ _ Mod' H1))).
  - right. now destruct (functionAllocates F).
Qed.

Lemma X5_report_without_alloca_ignores_layout_witness :
  output run Examples.plain = output run Examples.plain8.
Proof.
  apply (X5_report_without_alloca_ignores_layout
           Examples.plain Examples.plain8); reflexivity.
Defined.

(* ------------------------------------------------------------------ *)
(** *** Properties of every line of a fragment *)

Lemma Forall_app_intro {A} (P : A -> Prop) (l1 l2 : list A) :
  Forall P l1 -> Forall P l2 -> Forall P (l1 ++ l2).
Proof. intros H1 H2. apply Forall_app. now split. Qed.

Lemma Forall_collect_from {A} (P : string -> Prop) (l : list A) f pos :
  (forall p x, Forall P (f p x)) -> Forall P (collect_from pos l f).
Proof.
  intros H. revert pos; induction l as [|x r IH]; intros pos; simpl.
  - constructor.
  - apply Forall_app_intro; [apply H | apply IH].
Qed.

Lemma Forall_map_intro {A} (P : string -> Prop) (g : A -> string)
      (l : list A) :
  (forall x, P (g x)) -> Forall P (map g l).
Proof.
  intros H. induction l as [|x r IH]; simpl; constructor; auto.
Qed.

Ltac all_lines :=
  repeat first
    [ apply Forall_nil
    | apply Forall_app_intro
    | apply Forall_collect_from; intros
    | apply Forall_map_intro; intros
    | apply Forall_cons ].

(** The fragment of an instruction, arm by arm, as a statement about each
    of its lines. *)
Ltac by_arm Mod tac :=
  match goal with
  | |- context [output (analyzeInstruction Mod
                  (mkInstruction ?txt ?ty ?cls)) Mod] =>
      first
        [ rewrite (emits_output _ _ _ Mod
                     (analyze_BinaryOperator Mod txt ty _ _ _))
        | rewrite (emits_output _ _ _ Mod
                     (analyze_AllocaInst Mod txt ty _ _ _))
        | rewrite (emits_output _ _ _ Mod (analyze_LoadInst Mod txt ty _ _))
        | rewrite (emits_output _ _ _ Mod
                     (analyze_StoreInst Mod txt ty _ _ _))
        | rewrite (emits_output _ _ _ Mod
                     (analyze_CallInst_direct Mod txt ty _ _ _))
        | rewrite (emits_output _ _ _ Mod
                     (analyze_CallInst_indirect Mod txt ty _ _))
        | rewrite (emits_output _ _ _ Mod
                     (analyze_BranchInst_unconditional Mod txt ty _))
        | rewrite (emits_output _ _ _ Mod
                     (analyze_BranchInst_conditional Mod txt ty _ _ _))
        | rewrite (emits_output _ _ _ Mod
                     (analyze_ReturnInst_value Mod txt ty _))
        | rewrite (emits_output _ _ _ Mod
                     (analyze_ReturnInst_void Mod txt ty))
        | rewrite (emits_output _ _ _ Mod
                     (analyze_ICmpInst Mod txt ty _ _ _))
        | rewrite (emits_output _ _ _ Mod
                     (analyze_FCmpInst Mod txt ty _ _ _))
        | rewrite (emits_output _ _ _ Mod (analyze_CastInst Mod txt ty _ _))
        | rewrite (emits_output _ _ _ Mod
                     (analyze_OtherInst Mod txt ty _ _)) ]
  end;
  cbv beta iota; all_lines; tac.

Ltac each_instruction I :=
  destruct I as [txt ty cls];
  destruct cls as [o a b|t n al|p al|v p al|[callee|] t xs|s|c s0 s1
                  |[[[nm|] vty vtxt []]|]|p a b|p a b|o a|o xs].


(** X6.  No instruction reaches the final [else] of the cascade: no line of
    any instruction's fragment begins with the header or with the opcode
    line of that arm. *)
Theorem X6_unknown_arm_never_written (Mod : Module) (I : Instruction) :
  Forall (fun line =>
            String.prefix "   │      ❓ Unknown Instruction Type" line = false /\
            String.prefix "   │         Opcode: " line = false)
         (output (analyzeInstruction Mod I) Mod).
Proof.
  each_instruction I; by_arm Mod ltac:(split; reflexivity).
Qed.


(* ------------------------------------------------------------------ *)
(** *** Lines by position *)

Lemma counter_at_small (pos : nat) :
  (N.of_nat (S pos) < 2 ^ 32)%N -> counter_at pos = N.of_nat (S pos).
Proof. intros H. unfold counter_at. now apply N.mod_small. Qed.

Lemma length_collect_from_lines {A} (l : list A) (g : nat -> A -> string)
      pos :
  length (collect_from pos l (fun p x => [g p x])) = length l.
Proof.
  revert pos; induction l as [|x r IH]; intros pos; simpl; auto.
Qed.

Lemma nth_error_collect_from_lines {A} (l : list A)
      (g : nat -> A -> string) pos i x :
  nth_error l i = Some x ->
  nth_error (collect_from pos l (fun p y => [g p y])) i = Some (g (pos + i) x).
Proof.
  revert pos i; induction l as [|y r IH]; intros pos i H.
  - destruct i; discriminate H.
  - destruct i as [|i]; simpl in *.
    + injection H as ->. now rewrite Nat.add_0_r.
    + rewrite (IH (S pos) i H). now rewrite Nat.add_succ_r.
Qed.

Lemma nth_error_skip2 {A} (a b : A) (l : list A) (n : nat) :
  nth_error (a :: b :: l) (2 + n) = nth_error l n.
Proof. reflexivity. Qed.

(** X8.  A direct call is written by three statements more than it has
    arguments and the callee has parameters: the callee with its name, the
    number of arguments, one statement per argument, numbered from 1 in call
    order, the heading of the signature, and one statement per formal
    parameter of the callee in declaration order.  (A statement ends with a
    newline; the printed form of an argument may run over several lines of
    text.) *)
Theorem X8_direct_call_lines (Mod : Module) (txt : string) (ty : Ty)
        (callee : Callee) (t : Value) (xs : list Value) :
  exists out,
    emits (analyzeInstruction Mod
             (mkInstruction txt ty (CallInst (Some callee) t xs))) tt out /\
    length out = 3 + length xs + length (calleeArgs callee) /\
    nth_error out 0
    = Some ("   │      📞 Function Call: " ++ getName (calleeName callee) ++ "()")%string /\
    nth_error out 1
    = Some ("   │         Arguments: " ++ dec (N.of_nat (length xs)))%string /\
    (forall i arg,
       nth_error xs i = Some arg ->
       (N.of_nat (S i) < 2 ^ 32)%N ->
       nth_error out (2 + i)
       = Some ("   │         Arg " ++ dec (N.of_nat (S i)) ++ ": "
                 ++ valueText arg)%string) /\
    nth_error out (2 + length xs)
    = Some "   │         Target Function Signature:" /\
    (forall j param,
       nth_error (calleeArgs callee) j = Some param ->
       nth_error out (3 + length xs + j)
       = Some ("   │           • " ++ shownName (argName param)
                 ++ " : " ++ tyText (argType param))%string).
Proof.
  eexists. split; [apply analyze_CallInst_direct|].
  remember (collect_from 0 xs _) as args_ eqn:Hargs.
  assert (Hlen : length args_ = length xs)
    by (subst args_; apply length_collect_from_lines).
  split; [|split; [reflexivity|split; [reflexivity|split; [|split]]]].
  - rewrite !length_app, Hlen, length_map. simpl. lia.
  - intros i arg Hi Hsmall. cbn [app]. rewrite nth_error_skip2.
    rewrite nth_error_app1 by (rewrite Hlen; apply nth_error_Some; congruence).
    subst args_. rewrite (nth_error_collect_from_lines _ _ 0 i arg Hi).
    cbn [Nat.add]. now rewrite counter_at_small.
  - cbn [app]. rewrite nth_error_skip2.
    rewrite nth_error_app2 by lia. rewrite Hlen, Nat.sub_diag.
    reflexivity.
  - intros j param Hj. cbn [app].
    replace (3 + length xs + j) with (2 + (length args_ + S j)) by lia.
    rewrite nth_error_skip2.
    rewrite nth_error_app2 by lia.
    replace (length args_ + S j - length args_) with (S j) by lia.
    cbn [nth_error].
    now rewrite nth_error_map, Hj.
Qed.

Lemma X8_direct_call_lines_witness :
  output (analyzeInstruction Examples.demo Examples.call_add2) Examples.demo
  = [ ("   │      📞 Function Call: " ++ "add2()")%string;
      ("   │         Arguments: " ++ "2")%string;
      ("   │         Arg " ++ "1: i32 %n")%string;
      ("   │         Arg " ++ "2: i32 42")%string;
      "   │         Target Function Signature:";
      ("   │           • " ++ "x : i32")%string;
      ("   │           • " ++ "unnamed : i32")%string ].
Proof.
  destruct (X8_direct_call_lines Examples.demo
              "  %r = call i32 @add2(i32 %n, i32 42)" Examples.i32
              Examples.add2_callee Examples.add2_value
              [Examples.n; Examples.c42])
    as (out & Hout & Hlen & H0 & H1 & Hargs & Hsig & Hparams).
  pose proof (Hargs 0 Examples.n eq_refl eq_refl) as Ha0.
  pose proof (Hargs 1 Examples.c42 eq_refl eq_refl) as Ha1.
  pose proof (Hparams 0 _ eq_refl) as Hp0.
  pose proof (Hparams 1 _ eq_refl) as Hp1.
  rewrite (emits_output _ _ _ Examples.demo Hout : output
             (analyzeInstruction Examples.demo Examples.call_add2)
             Examples.demo = out).
  simpl in Hlen.
  do 7 (destruct out as [|? out]; [discriminate Hlen|]).
  destruct out; [|discriminate Hlen].
  simpl in H0, H1, Ha0, Ha1, Hsig, Hp0, Hp1.
  injection H0 as ->. injection H1 as ->. injection Ha0 as ->.
  injection Ha1 as ->. injection Hsig as ->. injection Hp0 as ->.
  injection Hp1 as ->.
  reflexivity.
Defined.

(** X9.  An instruction of a class without an arm of its own (a [select],
    a [phi], a [getelementptr], ...) is written by the operator arm, in two
    statements more than it has operands: its opcode, the number of its
    operands, and one statement per operand, indexed from 0 in operand
    order.  (A statement ends with a newline; the printed form of an operand
    may run over several lines of text.) *)
Theorem X9_operator_lines (Mod : Module) (txt : string) (ty : Ty)
        (o : OtherOps) (xs : list Value) :
  exists out,
    emits (analyzeInstruction Mod (mkInstruction txt ty (OtherInst o xs)))
          tt out /\
    length out = 2 + length xs /\
    nth_error out 0
    = Some ("   │      ⚙️  Other Operator: " ++ otherOpcodeName o)%string /\
    nth_error out 1
    = Some ("   │         Operands: " ++ dec (N.of_nat (length xs)))%string /\
    (forall i v,
       nth_error xs i = Some v ->
       nth_error out (2 + i)
       = Some ("   │         Op[" ++ dec (N.of_nat i) ++ "]: "
                 ++ valueText v)%string).
Proof.
  eexists. split; [apply analyze_OtherInst|].
  split; [|split; [reflexivity|split; [reflexivity|]]].
  - rewrite length_app, length_collect_from_lines. reflexivity.
  - intros i v Hi. cbn [app]. rewrite nth_error_skip2.
    now rewrite (nth_error_collect_from_lines _ _ 0 i v Hi).
Qed.

Lemma X9_operator_lines_witness :
  output (analyzeInstruction Examples.demo Examples.select_n) Examples.demo
  = [ ("   │      ⚙️  Other Operator: " ++ "select")%string;
      ("   │         Operands: " ++ "3")%string;
      ("   │         Op[" ++ "0]:   %d = icmp slt i32 %n, 42")%string;
      ("   │         Op[" ++ "1]: i32 %n")%string;
      ("   │         Op[" ++ "2]: i32 42")%string ].
Proof.
  destruct (X9_operator_lines Examples.demo
              "  %s = select i1 %d, i32 %n, i32 42" Examples.i32 Select
              [Examples.d; Examples.n; Examples.c42])
    as (out & Hout & Hlen & H0 & H1 & Hops).
  pose proof (Hops 0 _ eq_refl) as Ho0.
  pose proof (Hops 1 _ eq_refl) as Ho1.
  pose proof (Hops 2 _ eq_refl) as Ho2.
  rewrite (emits_output _ _ _ Examples.demo Hout : output
             (analyzeInstruction Examples.demo Examples.select_n)
             Examples.demo = out).
  simpl in Hlen.
  do 5 (destruct out as [|? out]; [discriminate Hlen|]).
  destruct out; [|discriminate Hlen].
  simpl in H0, H1, Ho0, Ho1, Ho2.
  injection H0 as ->. injection H1 as ->. injection Ho0 as ->.
  injection Ho1 as ->. injection Ho2 as ->.
  reflexivity.
Defined.

(** X10.  Within a block the instructions are reported in block order and
    numbered from 1: the instruction that follows [k] others is reported
    after the fragments of those, under the number [k + 1] (as long as that
    fits an [unsigned]), and before the fragments of the instructions after
    it. *)
Theorem X10_instructions_in_block_order (Mod : Module) (F : Function)
        (pos : nat) (name : option string) (before after : list Instruction)
        (I : Instruction) :
  (N.of_nat (S (length before)) < 2 ^ 32)%N ->
  emits (analyzeBasicBlock Mod F pos
           (mkBasicBlock name (before ++ I :: after))) tt
    ([ ("   ┌─ Basic Block #" ++ dec (counter_at pos) ++ ": " ++ shownName name)%string;
       ("   │  Instructions: "
          ++ dec (N.of_nat (length (before ++ I :: after))))%string;
       "   │" ]
     ++ collect_from 0 before (fun ipos J =>
          [ ("   │  [" ++ dec (counter_at ipos) ++ "] " ++ instText J)%string ]
          ++ output (analyzeInstruction Mod J) Mod
          ++ [ "   │" ])
     ++ [ ("   │  [" ++ dec (N.of_nat (S (length before))) ++ "] "
             ++ instText I)%string ]
     ++ output (analyzeInstruction Mod I) Mod
     ++ [ "   │" ]
     ++ collect_from (S (length before)) after (fun ipos J =>
          [ ("   │  [" ++ dec (counter_at ipos) ++ "] " ++ instText J)%string ]
          ++ output (analyzeInstruction Mod J) Mod
          ++ [ "   │" ])
     ++ [ if negb (isBack F pos) then interiorSeparator
          else finalSeparator ]).
Proof.
  intros Hsmall.
  eapply emits_eq; [apply analyzeBasicBlock_emits|].
  cbn [instructions bbName]. rewrite collect_from_app.
  cbn [collect_from Nat.add].
  rewrite (counter_at_small _ Hsmall).
  rewrite <- !app_assoc. reflexivity.
Qed.

Lemma X10_instructions_in_block_order_witness :
  exists first rest,
    output (analyzeBasicBlock Examples.demo Examples.main 0 Examples.entry)
           Examples.demo
    = first
      ++ [ ("   │  [" ++ "2]   %w = zext i32 %n to i64")%string ]
      ++ output (analyzeInstruction Examples.demo Examples.zext_n)
                Examples.demo
      ++ [ "   │" ]
      ++ rest.
Proof.
  assert (Hsmall : (N.of_nat (S (length [Examples.alloca_vla])) < 2 ^ 32)%N)
    by reflexivity.
  pose proof (X10_instructions_in_block_order Examples.demo Examples.main 0
                (Some "entry"%string) [Examples.alloca_vla]
                [Examples.fcmp_ab; Examples.icmp_n; Examples.br_exit]
                Examples.zext_n Hsmall) as H.
  apply (emits_output _ _ _ Examples.demo) in H.
  change (mkBasicBlock (Some "entry"%string)
            ([Examples.alloca_vla]
               ++ Examples.zext_n
               :: [Examples.fcmp_ab; Examples.icmp_n; Examples.br_exit]))
    with Examples.entry in H.
  rewrite H. rewrite app_assoc.
  eexists. eexists. reflexivity.
Defined.

(** X11.  The smallest definition, a function without parameters whose one
    block only returns, is written as: the definition header with parameter
    count 0 and block count 1 and no argument heading, the header of block 1
    with instruction count 1, the instruction under number 1 with the bare
    void-return marker, the final separator, and the closing rule. *)
Theorem X11_single_void_return (Mod : Module) (name : option string)
        (rty : Ty) (bname : option string) (txt : string) (ty : Ty) :
  emits (analyzeFunction Mod
           (mkFunction name rty []
              [mkBasicBlock bname
                 [mkInstruction txt ty (ReturnInst None)]])) tt
    [ ("🔧 Function Definition: " ++ getName name ++ "()")%string;
      ("   ↳ Return Type: " ++ tyText rty)%string;
      ("   ↳ Parameters: " ++ "0")%string;
      ("   ↳ Basic Blocks: " ++ "1")%string;
      ""%string;
      ("   ┌─ Basic Block #" ++ "1: " ++ shownName bname)%string;
      ("   │  Instructions: " ++ "1")%string;
      "   │";
      ("   │  [" ++ "1] " ++ txt)%string;
      "   │      🔙 Return Statement (void)";
      "   │";
      "   └─────────────────────────────────────────────────────";
      ""%string;
      "══════════════════════════════════════════════════════════════════════════════";
      ""%string ].
Proof.
  eapply emits_eq; [apply analyzeFunction_definition; discriminate|].
  reflexivity.
Qed.
